(** * A shallow embedding of the [mwaldtha/go] hashing servers

    The repository holds two HTTP servers written in Go:

    - [pwdsrv/password_server.go], the basic server: a single handler that
      sleeps five seconds and answers a POST with the base64 encoded SHA-512
      hash of the submitted [password] form value;
    - the concurrent server ([package main] with [HashHandler] and
      [StatsHandler]): a POST allocates a job id, a GET retrieves the stored
      digest of a job, [/stats] reports the number of hash requests and their
      average duration, and a termination signal puts the server in a
      stopping state in which every handler answers 503.

    The development follows the source text function by function.  Go's
    [int32]/[int64] are integers of [Z] with their wrap-around written out,
    [float64] is the primitive binary64 float of the kernel, a Go [string]
    is a [string] (a sequence of bytes), the [hashes] map is a [gmap], and
    the [*HashStat] pointers held by [hashStats] are addresses into an
    explicit heap so that aliasing between a reader's snapshot and the
    object mutated by [updateStats] is visible. *)

From Stdlib Require Import ZArith Floats Uint63 Ascii String List Lia QArith.
From stdpp Require Import base gmap list.
Import ListNotations.

#[local] Open Scope string_scope.
#[local] Open Scope list_scope.
#[local] Open Scope Z_scope.

(** ** Machine integers *)

(** Conversion of an integer to a signed [w]-bit integer, as performed by
    Go's [int32(x)] conversion and by the overflow of [atomic.AddInt32]. *)
Definition wrap_signed (w : Z) (x : Z) : Z :=
  (x + 2 ^ (w - 1)) mod 2 ^ w - 2 ^ (w - 1).

Definition int32 (x : Z) : Z := wrap_signed 32 x.

Definition MaxInt32 : Z := 2147483647.
Definition MinInt32 : Z := -2147483648.
Definition MaxInt64 : Z := 9223372036854775807.
Definition MinInt64 : Z := -9223372036854775808.

(** [float64(x)] for an [int64] (or [int32]) value [x], that is for
    [MinInt64 <= x <= MaxInt64]: the nearest binary64 float, ties to even.
    [PrimFloat.of_uint63] converts the magnitude, which fits in 63 bits
    except for [MinInt64], a power of two and hence exact. *)
Definition float64_of_int (x : Z) : float :=
  if x =? MinInt64 then (-9223372036854775808)%float
  else if x <? 0 then (- PrimFloat.of_uint63 (Uint63.of_Z (- x)))%float
  else PrimFloat.of_uint63 (Uint63.of_Z x).

(** ** Strings: [strings.Split], [strconv.Itoa], [strconv.Atoi] *)

(** [strings.Split(s, "/")]: the fields of [s] between occurrences of the
    one-byte separator; always at least one field. *)
Fixpoint split_go (sep : ascii) (s : string) (cur : string) : list string :=
  match s with
  | EmptyString => [cur]
  | String c rest =>
      if Ascii.eqb c sep then cur :: split_go sep rest EmptyString
      else split_go sep rest (cur ++ String c EmptyString)%string
  end.

Definition strings_Split (s : string) (sep : ascii) : list string :=
  split_go sep s EmptyString.

Definition is_digit (c : ascii) : bool :=
  let n := N_of_ascii c in (48 <=? n)%N && (n <=? 57)%N.

Definition digit_val (c : ascii) : Z := Z.of_N (N_of_ascii c) - 48.

(** Value of a string of decimal digits; [None] when a byte is no digit. *)
Fixpoint parse_digits (s : string) (acc : Z) : option Z :=
  match s with
  | EmptyString => Some acc
  | String c rest =>
      if is_digit c then parse_digits rest (10 * acc + digit_val c) else None
  end.

(** [strconv.Atoi] on a platform whose [int] has 64 bits: an optional sign,
    then one or more decimal digits; a value outside [int64] is a range
    error.  [None] stands for [err != nil]. *)
Definition strconv_Atoi (s : string) : option Z :=
  let '(neg, ds) :=
    match s with
    | String "-" rest => (true, rest)
    | String "+" rest => (false, rest)
    | _ => (false, s)
    end in
  match ds with
  | EmptyString => None
  | _ =>
      match parse_digits ds 0 with
      | None => None
      | Some v =>
          let n := if neg then - v else v in
          if (MinInt64 <=? n) && (n <=? MaxInt64) then Some n else None
      end
  end.

Definition digit_char (d : Z) : ascii := ascii_of_N (Z.to_N (48 + d)).

(** Decimal digits of a positive number, most significant first; [fuel]
    bounds the number of digits. *)
Fixpoint digits_of (fuel : nat) (n : Z) (acc : string) : string :=
  match fuel with
  | O => acc
  | S fuel' =>
      let acc' := String (digit_char (n mod 10)) acc in
      if n <? 10 then acc' else digits_of fuel' (n / 10) acc'
  end.

(** [strconv.Itoa]. *)
Definition strconv_Itoa (n : Z) : string :=
  if n <? 0 then String "-" (digits_of (Z.to_nat (Z.log2 (- n)) + 1) (- n) EmptyString)
  else digits_of (Z.to_nat (Z.log2 n) + 1) n EmptyString.

(** The bytes of a Go string, [[]byte(s)]. *)
Definition bytes_of_string (s : string) : list Z :=
  map (fun c => Z.of_N (N_of_ascii c)) (list_ascii_of_string s).

(** ** The digest: [crypto/sha512] and [encoding/base64]

    Both servers call [sha512.New()], [h.Write], [h.Sum(nil)] and
    [base64.StdEncoding.EncodeToString] of the Go standard library.  They
    are written out here (FIPS 180-4 and RFC 4648) so that the embedding
    runs on the inputs of the repository's tests. *)
Module sha512.

Definition mask64 : Z := 2 ^ 64 - 1.
Definition w64 (x : Z) : Z := Z.land x mask64.
Definition add64 (x y : Z) : Z := w64 (x + y).
Definition rotr (n x : Z) : Z :=
  w64 (Z.lor (Z.shiftr x n) (Z.shiftl x (64 - n))).
Definition not64 (x : Z) : Z := Z.lxor x mask64.

Definition K : list Z :=
  [ 0x428a2f98d728ae22; 0x7137449123ef65cd; 0xb5c0fbcfec4d3b2f; 0xe9b5dba58189dbbc;
    0x3956c25bf348b538; 0x59f111f1b605d019; 0x923f82a4af194f9b; 0xab1c5ed5da6d8118;
    0xd807aa98a3030242; 0x12835b0145706fbe; 0x243185be4ee4b28c; 0x550c7dc3d5ffb4e2;
    0x72be5d74f27b896f; 0x80deb1fe3b1696b1; 0x9bdc06a725c71235; 0xc19bf174cf692694;
    0xe49b69c19ef14ad2; 0xefbe4786384f25e3; 0x0fc19dc68b8cd5b5; 0x240ca1cc77ac9c65;
    0x2de92c6f592b0275; 0x4a7484aa6ea6e483; 0x5cb0a9dcbd41fbd4; 0x76f988da831153b5;
    0x983e5152ee66dfab; 0xa831c66d2db43210; 0xb00327c898fb213f; 0xbf597fc7beef0ee4;
    0xc6e00bf33da88fc2; 0xd5a79147930aa725; 0x06ca6351e003826f; 0x142929670a0e6e70;
    0x27b70a8546d22ffc; 0x2e1b21385c26c926; 0x4d2c6dfc5ac42aed; 0x53380d139d95b3df;
    0x650a73548baf63de; 0x766a0abb3c77b2a8; 0x81c2c92e47edaee6; 0x92722c851482353b;
    0xa2bfe8a14cf10364; 0xa81a664bbc423001; 0xc24b8b70d0f89791; 0xc76c51a30654be30;
    0xd192e819d6ef5218; 0xd69906245565a910; 0xf40e35855771202a; 0x106aa07032bbd1b8;
    0x19a4c116b8d2d0c8; 0x1e376c085141ab53; 0x2748774cdf8eeb99; 0x34b0bcb5e19b48a8;
    0x391c0cb3c5c95a63; 0x4ed8aa4ae3418acb; 0x5b9cca4f7763e373; 0x682e6ff3d6b2b8a3;
    0x748f82ee5defb2fc; 0x78a5636f43172f60; 0x84c87814a1f0ab72; 0x8cc702081a6439ec;
    0x90befffa23631e28; 0xa4506cebde82bde9; 0xbef9a3f7b2c67915; 0xc67178f2e372532b;
    0xca273eceea26619c; 0xd186b8c721c0c207; 0xeada7dd6cde0eb1e; 0xf57d4f7fee6ed178;
    0x06f067aa72176fba; 0x0a637dc5a2c898a6; 0x113f9804bef90dae; 0x1b710b35131c471b;
    0x28db77f523047d84; 0x32caab7b40c72493; 0x3c9ebe0a15c9bebc; 0x431d67c49c100d4c;
    0x4cc5d4becb3e42b6; 0x597f299cfc657e2a; 0x5fcb6fab3ad6faec; 0x6c44198c4a475817 ].

(** The eight chaining words [h0..h7]. *)
Record digest := Digest {
  h0 : Z; h1 : Z; h2 : Z; h3 : Z; h4 : Z; h5 : Z; h6 : Z; h7 : Z }.

Definition init : digest :=
  Digest 0x6a09e667f3bcc908 0xbb67ae8584caa73b 0x3c6ef372fe94f82b 0xa54ff53a5f1d36f1
         0x510e527fade682d1 0x9b05688c2b3e6c1f 0x1f83d9abfb41bd6b 0x5be0cd19137e2179.

(** Big-endian value of a list of bytes. *)
Definition be_word (bs : list Z) : Z :=
  fold_left (fun acc b => Z.lor (Z.shiftl acc 8) b) bs 0.

(** The [n] big-endian bytes of [x]. *)
Fixpoint be_bytes (n : nat) (x : Z) : list Z :=
  match n with
  | O => []
  | S n' => Z.land (Z.shiftr x (8 * Z.of_nat n')) 255 :: be_bytes n' x
  end.

(** The first sixteen words of the message schedule: the block itself. *)
Fixpoint block_words (n : nat) (block : list Z) : list Z :=
  match n with
  | O => []
  | S n' => be_word (firstn 8 block) :: block_words n' (skipn 8 block)
  end.

Definition wat (w : list Z) (i : nat) : Z := nth i w 0.

(** Words 16..79 of the schedule, appended one at a time. *)
Fixpoint schedule (n : nat) (w : list Z) : list Z :=
  match n with
  | O => w
  | S n' =>
      let i := length w in
      let v1 := wat w (i - 2) in
      let t1 := Z.lxor (Z.lxor (rotr 19 v1) (rotr 61 v1)) (Z.shiftr v1 6) in
      let v2 := wat w (i - 15) in
      let t2 := Z.lxor (Z.lxor (rotr 1 v2) (rotr 8 v2)) (Z.shiftr v2 7) in
      schedule n' (w ++ [add64 (add64 (add64 t1 (wat w (i - 7))) t2) (wat w (i - 16))])
  end.

(** One of the eighty rounds on the working variables [a..h]. *)
Definition round (s : digest) (kw : Z * Z) : digest :=
  let '(Digest a b c d e f g h) := s in
  let t1 :=
    add64 (add64 (add64 (add64 h
      (Z.lxor (Z.lxor (rotr 14 e) (rotr 18 e)) (rotr 41 e)))
      (Z.lxor (Z.land e f) (Z.land (not64 e) g))) (fst kw)) (snd kw) in
  let t2 :=
    add64 (Z.lxor (Z.lxor (rotr 28 a) (rotr 34 a)) (rotr 39 a))
          (Z.lxor (Z.lxor (Z.land a b) (Z.land a c)) (Z.land b c)) in
  Digest (add64 t1 t2) a b c (add64 d t1) e f g.

(** [blockGeneric] on one 128-byte block. *)
Definition block (s : digest) (blk : list Z) : digest :=
  let w := schedule 64 (block_words 16 blk) in
  let '(Digest a b c d e f g h) := fold_left round (combine K w) s in
  Digest (add64 (h0 s) a) (add64 (h1 s) b) (add64 (h2 s) c) (add64 (h3 s) d)
         (add64 (h4 s) e) (add64 (h5 s) f) (add64 (h6 s) g) (add64 (h7 s) h).

(** The message followed by [0x80], zero bytes up to 112 modulo 128, and
    the length in bits as a 128-bit big-endian integer. *)
Definition pad (msg : list Z) : list Z :=
  let len := Z.of_nat (length msg) in
  msg ++ [128] ++ repeat 0 (Z.to_nat ((111 - len) mod 128)) ++ be_bytes 16 (8 * len).

Fixpoint blocks (n : nat) (s : digest) (data : list Z) : digest :=
  match n with
  | O => s
  | S n' => blocks n' (block s (firstn 128 data)) (skipn 128 data)
  end.

(** [h := sha512.New(); h.Write(msg); h.Sum(nil)]: 64 bytes. *)
Definition Sum (msg : list Z) : list Z :=
  let p := pad msg in
  let '(Digest a b c d e f g h) := blocks (length p / 128)%nat init p in
  be_bytes 8 a ++ be_bytes 8 b ++ be_bytes 8 c ++ be_bytes 8 d ++
  be_bytes 8 e ++ be_bytes 8 f ++ be_bytes 8 g ++ be_bytes 8 h.

End sha512.

Module base64.

Definition encodeStd : string :=
  "ABCDEFGHIJKLMNOPQRSTUVWXYZabcdefghijklmnopqrstuvwxyz0123456789+/".

Definition enc (i : Z) : ascii :=
  match String.get (Z.to_nat i) encodeStd with
  | Some c => c
  | None => "="%char
  end.

(** [StdEncoding.EncodeToString]: three bytes give four characters; a
    final group of one or two bytes is padded with ['=']. *)
Fixpoint encode (fuel : nat) (src : list Z) : string :=
  match fuel with
  | O => EmptyString
  | S fuel' =>
      match src with
      | [] => EmptyString
      | [b0] =>
          let v := Z.shiftl b0 16 in
          String (enc (Z.land (Z.shiftr v 18) 63))
            (String (enc (Z.land (Z.shiftr v 12) 63)) "==")
      | [b0; b1] =>
          let v := Z.lor (Z.shiftl b0 16) (Z.shiftl b1 8) in
          String (enc (Z.land (Z.shiftr v 18) 63))
            (String (enc (Z.land (Z.shiftr v 12) 63))
              (String (enc (Z.land (Z.shiftr v 6) 63)) "="))
      | b0 :: b1 :: b2 :: rest =>
          let v := Z.lor (Z.lor (Z.shiftl b0 16) (Z.shiftl b1 8)) b2 in
          String (enc (Z.land (Z.shiftr v 18) 63))
            (String (enc (Z.land (Z.shiftr v 12) 63))
              (String (enc (Z.land (Z.shiftr v 6) 63))
                (String (enc (Z.land v 63)) (encode fuel' rest))))
      end
  end.

Definition EncodeToString (src : list Z) : string := encode (length src) src.

End base64.

(** ** The concurrent server: data *)

(** [type HashStat struct { Total int32; Average float64 }]. *)
Record HashStat := mkHashStat { Total : Z; Average : float }.

(** The package-level variables.  [hashStats] is an [atomic.Value] that
    holds a [*HashStat]: an address into [mem], the [HashStat] objects
    allocated so far, or nothing before the first [Store].  The mutex
    [lock] has no field: the sections it protects run without
    interruption in this model, and its operations appear in the trace. *)
Record Globals := mkGlobals {
  hashes : gmap Z string;
  jobCounter : Z;
  hashStats : option nat;
  stopping : Z;
  mem : list HashStat }.

(** An argument of [log.Printf].  The two floats that [updateStats] logs
    through [strconv.FormatFloat] are kept as floats. *)
Inductive LogArg :=
  | AInt (n : Z)
  | AStr (s : string)
  | AFloat (f : float).

(** What is written to a response: text, or the bytes returned by
    [json.Marshal] for a [HashStat]. *)
Inductive BodyPart :=
  | BText (s : string)
  | BJSON (hs : HashStat).

(** What a piece of code does besides changing the variables, in order. *)
Inductive Effect :=
  | ELog (format : string) (args : list LogArg)
  | ESleep (seconds : Z)
  | ELock | EUnlock | ERLock | ERUnlock
  | EHeaderSet (key value : string)
  | EWriteHeader (code : Z)
  | EWrite (b : BodyPart).

(** An [*http.Request] as far as the handlers read it: the method, the
    path of the URL and the parsed form of the body. *)
Record Request := mkRequest {
  Method : string;
  Path : string;
  PostForm : list (string * string) }.

(** [r.PostFormValue(key)]: the first value of [key], or the empty string. *)
Fixpoint PostFormValue_in (form : list (string * string)) (key : string) : string :=
  match form with
  | [] => ""
  | (k, v) :: rest => if String.eqb k key then v else PostFormValue_in rest key
  end.

Definition PostFormValue (r : Request) (key : string) : string :=
  PostFormValue_in (PostForm r) key.

Definition MethodGet : string := "GET".
Definition MethodPost : string := "POST".
Definition StatusOK : Z := 200.
Definition StatusBadRequest : Z := 400.
Definition StatusNotFound : Z := 404.
Definition StatusMethodNotAllowed : Z := 405.
Definition StatusInternalServerError : Z := 500.
Definition StatusServiceUnavailable : Z := 503.
Definition passwordFormName : string := "password".

(** What a client receives, as [httptest.ResponseRecorder] collects it. *)
Record Response := mkResponse {
  wroteHeader : bool;
  Code : Z;
  Header : list (string * string);
  Body : list BodyPart }.

Definition NewRecorder : Response := mkResponse false 200 [] [].

(** The first [WriteHeader] fixes the status and the headers; a [Write]
    before any [WriteHeader] implies status 200.  [Header] holds the
    headers that the handler sets itself; what [net/http] adds on the
    first write when the handler set no [Content-Type] (the type it
    detects from the body) is not recorded. *)
Definition record (w : Response) (e : Effect) : Response :=
  match e with
  | EHeaderSet k v =>
      if wroteHeader w then w
      else mkResponse false (Code w) ((k, v) :: Header w) (Body w)
  | EWriteHeader c =>
      if wroteHeader w then w else mkResponse true c (Header w) (Body w)
  | EWrite b =>
      mkResponse true (Code w) (Header w) (Body w ++ [b])
  | _ => w
  end.

Definition response_of (t : list Effect) : Response := fold_left record t NewRecorder.

(** ** The monad of the server code

    A computation reads and writes the package variables, emits effects,
    and may panic ([None]). *)
Definition M (A : Type) : Type := Globals -> option (A * Globals * list Effect).

#[local] Instance M_ret : MRet M := fun A x g => Some (x, g, []).

#[local] Instance M_bind : MBind M := fun A B f m g =>
  match m g with
  | None => None
  | Some (a, g1, t1) =>
      match f a g1 with
      | None => None
      | Some (b, g2, t2) => Some (b, g2, t1 ++ t2)
      end
  end.

Definition emit (e : Effect) : M unit := fun g => Some (tt, g, [e]).
Definition panic {A} : M A := fun _ => None.
Definition get_globals : M Globals := fun g => Some (g, g, []).
Definition put_globals (g : Globals) : M unit := fun _ => Some (tt, g, []).

Definition log_Println (s : string) : M unit := emit (ELog s []).
Definition log_Printf (format : string) (args : list LogArg) : M unit :=
  emit (ELog format args).
Definition time_Sleep (seconds : Z) : M unit := emit (ESleep seconds).

(** [http.Error(w, msg, code)]. *)
Definition http_Error (msg : string) (code : Z) : M unit :=
  emit (EHeaderSet "Content-Type" "text/plain; charset=utf-8");;
  emit (EHeaderSet "X-Content-Type-Options" "nosniff");;
  emit (EWriteHeader code);;
  emit (EWrite (BText (msg ++ String (ascii_of_nat 10) "")%string)).

(** [atomic.LoadInt32(&stopping)] and [atomic.StoreInt32(&stopping, v)]. *)
Definition atomic_LoadInt32_stopping : M Z :=
  g ← get_globals; mret (stopping g).

Definition atomic_StoreInt32_stopping (v : Z) : M unit :=
  g ← get_globals;
  put_globals (mkGlobals (hashes g) (jobCounter g) (hashStats g) v (mem g)).

(** [atomic.AddInt32(&jobCounter, delta)]: one indivisible step that
    returns the new value. *)
Definition atomic_AddInt32_jobCounter (delta : Z) : M Z :=
  g ← get_globals;
  let new := int32 (jobCounter g + delta) in
  put_globals (mkGlobals (hashes g) new (hashStats g) (stopping g) (mem g));;
  mret new.

(** [hashStats.Load()] asserted to be a [*HashStat]: the type assertion
    panics while nothing has been stored. *)
Definition hashStats_Load : M nat :=
  g ← get_globals;
  match hashStats g with
  | Some p => mret p
  | None => panic
  end.

Definition hashStats_Store (p : nat) : M unit :=
  g ← get_globals;
  put_globals (mkGlobals (hashes g) (jobCounter g) (Some p) (stopping g) (mem g)).

(** Reading the object behind a [*HashStat]. *)
Definition deref (p : nat) : M HashStat :=
  g ← get_globals;
  match mem g !! p with
  | Some hs => mret hs
  | None => panic
  end.

(** [atomic.AddInt32(&hs.Total, delta)] on the object at address [p]: the
    field is updated in place. *)
Definition atomic_AddInt32_Total (p : nat) (delta : Z) : M Z :=
  hs ← deref p;
  g ← get_globals;
  let new := int32 (Total hs + delta) in
  put_globals (mkGlobals (hashes g) (jobCounter g) (hashStats g) (stopping g)
                 (<[p := mkHashStat new (Average hs)]> (mem g)));;
  mret new.

(** [&HashStat{...}]: a new object, at a new address. *)
Definition new_HashStat (hs : HashStat) : M nat :=
  g ← get_globals;
  put_globals (mkGlobals (hashes g) (jobCounter g) (hashStats g) (stopping g)
                 (mem g ++ [hs]));;
  mret (length (mem g)).

(** [hashes[k]]: the empty string when [k] has no entry. *)
Definition hashes_index (k : Z) : M string :=
  g ← get_globals; mret (default "" (hashes g !! k)).

(** [hashes[k] = v]. *)
Definition hashes_assign (k : Z) (v : string) : M unit :=
  g ← get_globals;
  put_globals (mkGlobals (<[k := v]> (hashes g)) (jobCounter g) (hashStats g)
                 (stopping g) (mem g)).

(** [json.Marshal] of a [*HashStat] fails on a NaN or an infinite
    [Average]. *)
Definition json_Marshal (hs : HashStat) : option BodyPart :=
  if is_nan (Average hs) || is_infinity (Average hs) then None
  else Some (BJSON hs).

(** The four lines that [encryptAndEncode] and [hashAndEncode] share. *)
Abbreviation digest_of data :=
  (base64.EncodeToString (sha512.Sum (bytes_of_string data))) (only parsing).

(** ** The basic server: [pwdsrv/password_server.go] *)

(** [encryptAndEncode(data)], lines 55-63: a log line, then the base64
    encoding of the SHA-512 hash of the bytes of [data]. *)
Definition encryptAndEncode (data : string) : M string :=
  log_Printf ("Processing: '%s'" ++ String (ascii_of_nat 10) "")%string [AStr data];;
  let cs := sha512.Sum (bytes_of_string data) in
  mret (base64.EncodeToString cs).

(** [PasswordHandler.ServeHTTP], lines 34-51. *)
Definition PasswordHandler_ServeHTTP (r : Request) : M unit :=
  if String.eqb (Method r) MethodPost then
    let p := PostFormValue r passwordFormName in
    if negb (String.eqb p "") then
      time_Sleep 5;;
      digest ← encryptAndEncode (PostFormValue r passwordFormName);
      emit (EWrite (BText digest))
    else
      emit (EWriteHeader StatusBadRequest);;
      emit (EWrite (BText "A value must be submitted."))
  else
    http_Error "Only POST requests are supported." StatusMethodNotAllowed.

(** ** The concurrent server: functions *)

(** [updateStats(durationNano)], lines 213-221: load the published
    pointer, increment [Total] of the object it points to, compute the new
    average from that object's [Average], publish a new object.  Every
    arithmetic operation of line 217 rounds to binary64 on its own, as in
    the code the Go compiler emits for amd64 (no fused multiply-add). *)
Definition updateStats (durationNano : Z) : M unit :=
  hs ← hashStats_Load;
  num ← atomic_AddInt32_Total hs 1;
  let durationMilli := (float64_of_int durationNano / 1e6)%float in
  old ← deref hs;
  let avg := ((Average old * (float64_of_int num - 1) + durationMilli)
              / float64_of_int num)%float in
  log_Printf "Adding duration (ms) %s to stats. New average: %s"
             [AFloat durationMilli; AFloat avg];;
  p ← new_HashStat (mkHashStat num avg);
  hashStats_Store p.

(** The first line of [hashAndEncode], line 197: [time.Sleep] of five
    seconds. *)
Definition hashAndEncode_sleep : M unit := time_Sleep 5.

(** [hashAndEncode] once its sleep is over, lines 199-209. *)
Definition hashAndEncode_awake (jid : Z) (data : string) : M unit :=
  log_Printf "Hashing and encoding: '%s'" [AStr data];;
  emit ELock;;
  let cs := sha512.Sum (bytes_of_string data) in
  hashes_assign jid (base64.EncodeToString cs);;
  emit EUnlock.

(** [hashAndEncode(jid, data)], lines 195-210. *)
Definition hashAndEncode (jid : Z) (data : string) : M unit :=
  hashAndEncode_sleep;;
  hashAndEncode_awake jid data.

(** The body of [HashHandler.ServeHTTP], lines 40-106, up to the point
    where the function returns: the result is the call registered by
    [defer], if any.  [elapsed] is the value of
    [time.Since(hashStart).Nanoseconds()], chosen by the clock. *)
Definition HashHandler_body (r : Request) (elapsed : Z) : M (option (Z * string)) :=
  st ← atomic_LoadInt32_stopping;
  if st =? 1 then
    http_Error "Server is stopping." StatusServiceUnavailable;; mret None
  else
    log_Println "Begining hash request.";;
    if String.eqb (Method r) MethodGet then
      log_Println "Processing hash GET.";;
      let urlParts := strings_Split (Path r) "/" in
      if (3 <=? length urlParts)%nat && negb (String.eqb (nth 2 urlParts "") "") then
        match strconv_Atoi (nth 2 urlParts "") with
        | None =>
            http_Error "Unable to process the supplied job id." StatusBadRequest;;
            mret None
        | Some jid =>
            log_Printf "Looking for job id %d." [AInt jid];;
            emit ERLock;;
            jidHash ← hashes_index (int32 jid);
            emit ERUnlock;;
            if String.eqb jidHash "" then
              http_Error "Unable to find the specified job id." StatusNotFound;;
              mret None
            else
              emit (EWriteHeader StatusOK);;
              emit (EWrite (BText jidHash));;
              log_Println "Finished hash request.";;
              mret None
        end
      else
        http_Error "No job id specified." StatusBadRequest;; mret None
    else if String.eqb (Method r) MethodPost then
      log_Println "Processing hash POST.";;
      let p := PostFormValue r passwordFormName in
      if negb (String.eqb p "") then
        jid ← atomic_AddInt32_jobCounter 1;
        emit (EWriteHeader StatusOK);;
        emit (EWrite (BText (strconv_Itoa jid)));;
        log_Printf "Hash request duration (nanoseconds): %s" [AStr (strconv_Itoa elapsed)];;
        updateStats elapsed;;
        log_Println "Finished hash request.";;
        mret (Some (jid, p))
      else
        http_Error "A value must be submitted." StatusBadRequest;; mret None
    else
      http_Error "Only POST and GET requests are supported." StatusMethodNotAllowed;;
      log_Println "Finished hash request.";;
      mret None.

(** Running what [defer] registered, when the function returns. *)
Definition run_deferred (d : option (Z * string)) : M unit :=
  match d with
  | Some (jid, data) => hashAndEncode jid data
  | None => mret tt
  end.

(** [HashHandler.ServeHTTP]: the body, then the deferred call, on the
    goroutine of the handler. *)
Definition HashHandler_ServeHTTP (r : Request) (elapsed : Z) : M unit :=
  d ← HashHandler_body r elapsed;
  run_deferred d.

(** [StatsHandler.ServeHTTP], lines 108-134. *)
Definition StatsHandler_ServeHTTP (r : Request) : M unit :=
  st ← atomic_LoadInt32_stopping;
  if st =? 1 then
    http_Error "Server is stopping." StatusServiceUnavailable
  else
    log_Println "Begining stats request.";;
    if String.eqb (Method r) MethodGet then
      log_Println "Processing stats GET.";;
      p ← hashStats_Load;
      hs ← deref p;
      match json_Marshal hs with
      | None => http_Error "Unable to generate stats." StatusInternalServerError
      | Some hsj =>
          emit (EHeaderSet "Content-Type" "application/json");;
          emit (EWrite hsj);;
          log_Println "Finished stats request."
      end
    else
      http_Error "Only GET requests are supported." StatusMethodNotAllowed;;
      log_Println "Finished stats request.".

(** The variables when the program starts, and after the line
    [hashStats.Store(&HashStat{Total: 0, Average: 0})] of [main]. *)
Definition zero_globals : Globals := mkGlobals ∅ 0 None 0 [].

Definition main_init : M unit :=
  p ← new_HashStat (mkHashStat 0 0%float);
  hashStats_Store p.

Definition initial : Globals :=
  match main_init zero_globals with
  | Some (_, g, _) => g
  | None => zero_globals
  end.

(** The goroutine of [main] that waits on [stopChan], lines 153-161, from
    the receipt of a signal to [wg.Wait()]. *)
Definition on_signal : M unit :=
  atomic_StoreInt32_stopping 1;;
  log_Println "Waiting for requests to finish.".

(** ** Executions

    Handlers run concurrently.  A handler that has registered the deferred
    [hashAndEncode] sleeps five seconds inside it; everything else it does
    is short.  An execution is a sequence of events, each of which runs
    one goroutine from one blocking point to the next. *)
Record Server := mkServer {
  globals : Globals;
  (** the handlers asleep in [hashAndEncode], with its arguments *)
  sleeping : list (Z * string);
  (** whether the goroutine of [main] still waits on [stopChan] *)
  awaiting_signal : bool }.

Inductive Event :=
  (** a request reaches [HashHandler]; the handler runs up to its return
      or up to the sleep of its deferred call *)
  | HashRequest (r : Request) (elapsed : Z)
  (** the [i]-th sleeping handler wakes up, finishes [hashAndEncode] and
      returns *)
  | Wake (i : nat)
  (** a request reaches [StatsHandler] *)
  | StatsRequest (r : Request)
  (** the process receives an interrupt or a termination signal *)
  | Signal.

(** What an event leaves behind: its effects (for a request, they include
    what the handler writes to its [http.ResponseWriter]) and, for a
    handler that went to sleep in its deferred call, the arguments of that
    call. *)
Record Outcome := mkOutcome {
  effects : list Effect;
  deferred : option (Z * string) }.

Definition start : Server := mkServer initial [] true.

(** The handler of a [HashRequest] up to its first blocking point. *)
Definition HashHandler_until_sleep (r : Request) (elapsed : Z)
  : M (option (Z * string)) :=
  d ← HashHandler_body r elapsed;
  match d with
  | Some _ => hashAndEncode_sleep
  | None => mret tt
  end;;
  mret d.

(** One event; [None] when the goroutine panics or the event cannot
    happen. *)
Definition step (s : Server) (e : Event) : option (Server * Outcome) :=
  match e with
  | HashRequest r elapsed =>
      match HashHandler_until_sleep r elapsed (globals s) with
      | Some (d, g, t) =>
          Some (mkServer g (sleeping s ++ option_list d) (awaiting_signal s),
                mkOutcome t d)
      | None => None
      end
  | Wake i =>
      match sleeping s !! i with
      | Some (jid, data) =>
          match hashAndEncode_awake jid data (globals s) with
          | Some (_, g, t) =>
              Some (mkServer g (delete i (sleeping s)) (awaiting_signal s),
                    mkOutcome t None)
          | None => None
          end
      | None => None
      end
  | StatsRequest r =>
      match StatsHandler_ServeHTTP r (globals s) with
      | Some (_, g, t) =>
          Some (mkServer g (sleeping s) (awaiting_signal s), mkOutcome t None)
      | None => None
      end
  | Signal =>
      if awaiting_signal s then
        match on_signal (globals s) with
        | Some (_, g, t) => Some (mkServer g (sleeping s) false, mkOutcome t None)
        | None => None
        end
      else Some (s, mkOutcome [] None)
  end.

(** A sequence of events: the final server and the outcome of each event. *)
Fixpoint run (s : Server) (es : list Event) : option (Server * list Outcome) :=
  match es with
  | [] => Some (s, [])
  | e :: es' =>
      match step s e with
      | None => None
      | Some (s1, o) =>
          match run s1 es' with
          | None => None
          | Some (s2, os) => Some (s2, o :: os)
          end
      end
  end.

(** The servers an execution goes through, the first one included. *)
Fixpoint states (s : Server) (es : list Event) : list Server :=
  s :: match es with
       | [] => []
       | e :: es' =>
           match step s e with
           | Some (s1, _) => states s1 es'
           | None => []
           end
       end.

(** The job ids handed out in an execution, in order. *)
Definition job_ids (os : list Outcome) : list Z :=
  omap (fun o => fst <$> deferred o) os.

(** The number of digests computed and stored in an execution: the [Wake]
    events. *)
Definition is_Wake (e : Event) : bool :=
  match e with Wake _ => true | _ => false end.

Definition completed (es : list Event) : nat := length (List.filter is_Wake es).

(** [Snapshot]: what a reader of [hashStats] sees, the object behind the
    published pointer. *)
Definition published (g : Globals) : option HashStat :=
  p ← hashStats g; mem g !! p.

(** ** [updateStats] statement by statement

    Two handlers may run [updateStats] at the same time.  Its three
    accesses to shared memory are the load of line 214, the atomic
    increment of line 215 and the store of line 220; lines 216-219 work on
    local variables and on the field [Average], which is never written
    after its object is allocated. *)
Inductive UpdatePc :=
  | AtLoad (durationNano : Z)
  | AtAdd (durationNano : Z) (hs : nat)
  | AtStore (durationNano : Z) (hs : nat) (num : Z)
  | Returned.

Definition updateStats_step (pc : UpdatePc) : M UpdatePc :=
  match pc with
  | AtLoad d =>
      hs ← hashStats_Load;
      mret (AtAdd d hs)
  | AtAdd d hs =>
      num ← atomic_AddInt32_Total hs 1;
      mret (AtStore d hs num)
  | AtStore d hs num =>
      let durationMilli := (float64_of_int d / 1e6)%float in
      old ← deref hs;
      let avg := ((Average old * (float64_of_int num - 1) + durationMilli)
                  / float64_of_int num)%float in
      log_Printf "Adding duration (ms) %s to stats. New average: %s"
                 [AFloat durationMilli; AFloat avg];;
      p ← new_HashStat (mkHashStat num avg);
      hashStats_Store p;;
      mret Returned
  | Returned => mret Returned
  end.

(** Goroutines inside [updateStats], run in the order of a schedule: each
    entry of the schedule names the goroutine that takes the next step. *)
Fixpoint interleave (schedule : list nat) (pcs : list UpdatePc) : M (list UpdatePc) :=
  match schedule with
  | [] => mret pcs
  | i :: rest =>
      match pcs !! i with
      | Some pc =>
          pc' ← updateStats_step pc;
          interleave rest (<[i := pc']> pcs)
      | None => panic
      end
  end.

(** ** The running average in any arithmetic

    The formula of line 217 and the incremental mean, over a type of
    numbers with its operations: [float] for the program, [Q] for exact
    arithmetic. *)
Section Mean.
Context {A : Type}.
Variables (add sub mul div : A -> A -> A) (one : A) (of_int : Z -> A).

(** [(avg * (float64(num) - 1) + latency) / float64(num)] *)
Definition reference_step (avg : A) (num : Z) (latency : A) : A :=
  div (add (mul avg (sub (of_int num) one)) latency) (of_int num).

(** [avg + (latency - avg) / num] *)
Definition incremental_step (avg : A) (num : Z) (latency : A) : A :=
  add avg (div (sub latency avg) (of_int num)).

(** The mean after the latencies [ls], starting from [avg] after [n]
    latencies. *)
Fixpoint mean_from (f : A -> Z -> A -> A) (avg : A) (n : Z) (ls : list A) : A :=
  match ls with
  | [] => avg
  | l :: rest => mean_from f (f avg (n + 1) l) (n + 1) rest
  end.
End Mean.

Definition float_reference_mean (ls : list float) : float :=
  mean_from (reference_step PrimFloat.add PrimFloat.sub PrimFloat.mul PrimFloat.div
                            1%float float64_of_int) 0%float 0 ls.

Definition float_incremental_mean (ls : list float) : float :=
  mean_from (incremental_step PrimFloat.add PrimFloat.sub PrimFloat.div
                              float64_of_int) 0%float 0 ls.

Definition Q_reference_mean (ls : list Q) : Q :=
  mean_from (reference_step Qplus Qminus Qmult Qdiv 1%Q inject_Z) 0%Q 0 ls.

Definition Q_incremental_mean (ls : list Q) : Q :=
  mean_from (incremental_step Qplus Qminus Qdiv inject_Z) 0%Q 0 ls.

(** [float64(durationNano) / 1e6] *)
Definition milliseconds (durationNano : Z) : float :=
  (float64_of_int durationNano / 1e6)%float.

(** [Record] called once per latency, one call after the other. *)
Fixpoint record_all (ds : list Z) : M unit :=
  match ds with
  | [] => mret tt
  | d :: rest => updateStats d;; record_all rest
  end.

(** The effects of [http.Error] with the message of a stopping server. *)
Definition rejected : list Effect :=
  [EHeaderSet "Content-Type" "text/plain; charset=utf-8";
   EHeaderSet "X-Content-Type-Options" "nosniff";
   EWriteHeader StatusServiceUnavailable;
   EWrite (BText ("Server is stopping." ++ String (ascii_of_nat 10) "")%string)].

(** The effects of [http.Error] in the order [http_Error] emits them. *)
Definition error_effects (msg : string) (code : Z) : list Effect :=
  [EHeaderSet "Content-Type" "text/plain; charset=utf-8";
   EHeaderSet "X-Content-Type-Options" "nosniff";
   EWriteHeader code;
   EWrite (BText (msg ++ String (ascii_of_nat 10) "")%string)].

(** Requests used in examples. *)
Definition post (value : string) : Request :=
  mkRequest MethodPost "/hash" [(passwordFormName, value)].

Definition get (path : string) : Request := mkRequest MethodGet path [].

(** The published pointer is valid and the counter of jobs agrees with
    the published total: what [main] establishes and every event keeps. *)
Definition consistent (g : Globals) : Prop :=
  exists p hs,
    hashStats g = Some p /\ mem g !! p = Some hs /\ Total hs = jobCounter g
    /\ MinInt32 <= jobCounter g <= MaxInt32.

(** A list of integers in which later entries are larger. *)
Definition strictly_increasing (l : list Z) : Prop :=
  forall i j a b, (i < j)%nat -> l !! i = Some a -> l !! j = Some b -> a < b.

(** The response to an accepted submission: status 200 and the decimal
    job id as the body. *)
Definition answers_with_id (o : Outcome) : Prop :=
  forall jid value, deferred o = Some (jid, value) ->
    Code (response_of (effects o)) = StatusOK /\
    Body (response_of (effects o)) = [BText (strconv_Itoa jid)].

(** A request that [HashHandler] turns into a job: the server is not
    stopping, the method is POST and the form value is not empty (the
    guards of lines 42, 80 and 84). *)
Definition accepted (g : Globals) (r : Request) : bool :=
  negb (stopping g =? 1) && String.eqb (Method r) MethodPost
  && negb (String.eqb (PostFormValue r passwordFormName) "").

(** Ten submissions of distinct values, strictly one after the other: each
    handler wakes up and returns before the next request arrives. *)
Definition ten_sequential : list Event :=
  concat (map (fun v => [HashRequest (post v) 25000; Wake 0])
    ["angryMonkey"; "password"; "two words"; "1234567890"; "abc"; "def";
     "ghi"; "jkl"; "mno"; "pqr"]).

Definition ten_server : Server :=
  Eval vm_compute in
    match run start ten_sequential with Some (s, _) => s | None => start end.

Definition ten_outcomes : list Outcome :=
  Eval vm_compute in
    match run start ten_sequential with Some (_, os) => os | None => [] end.

(** A submission followed by a termination signal. *)
Definition submit_then_signal : list Event :=
  [HashRequest (post "angryMonkey") 25000; Signal].

Definition stopped_server : Server :=
  Eval vm_compute in
    match run start submit_then_signal with Some (s, _) => s | None => start end.

(** The values of the flag [stopping] along an execution. *)
Definition flags (s : Server) (es : list Event) : list Z :=
  (fun s => stopping (globals s)) <$> states s es.

(** Three durations of 20, 30 and 40 microseconds, in nanoseconds. *)
Definition three_durations : list Z := [20000; 30000; 40000].

(** A submission, its completion, and a retrieval with an id that was
    never handed out. *)
Definition retrieve_unsubmitted : list Event :=
  [HashRequest (post "angryMonkey") 25000; Wake 0;
   HashRequest (get "/hash/4294967297") 0].

(** Two goroutines in [updateStats]: both load the pointer, both
    increment, the second stores, then the first stores. *)
Definition racing_schedule : list nat := [0; 1; 0; 1; 1; 0]%nat.

(** The same two calls one after the other. *)
Definition serial_schedule : list nat := [0; 0; 0; 1; 1; 1]%nat.

Definition two_calls : list UpdatePc := [AtLoad 20000; AtLoad 30000].

Definition retrieve_server : Server :=
  Eval vm_compute in
    match run start retrieve_unsubmitted with Some (s, _) => s | None => start end.

Definition retrieve_outcomes : list Outcome :=
  Eval vm_compute in
    match run start retrieve_unsubmitted with Some (_, os) => os | None => [] end.

(** The variables when [HashHandler.ServeHTTP] returns from the first
    submission. *)
Definition first_served : Globals :=
  Eval vm_compute in
    match HashHandler_ServeHTTP (post "angryMonkey") 25000 initial with
    | Some (_, g, _) => g
    | None => initial
    end.

(** Where the goroutines of a schedule end up and what is published
    then. *)
Definition published_after (schedule : list nat) (pcs : list UpdatePc)
  : option (list UpdatePc * option HashStat) :=
  match interleave schedule pcs initial with
  | Some (pcs', g, _) => Some (pcs', published g)
  | None => None
  end.

(** The status and the body of the response of an event. *)
Definition answer (o : Outcome) : Z * list BodyPart :=
  (Code (response_of (effects o)), Body (response_of (effects o))).

(** The jobs created in an execution: the id and the value of each
    accepted submission, in order. *)
Definition jobs (os : list Outcome) : list (Z * string) :=
  omap deferred os.

(** Every stored digest and every sleeping handler belongs to one of the
    jobs [js]. *)
Definition stored_from (js : list (Z * string)) (s : Server) : Prop :=
  (forall k d, hashes (globals s) !! k = Some d ->
     exists v, (k, v) ∈ js /\ d = digest_of v)
  /\ (forall kv, kv ∈ sleeping s -> kv ∈ js).

(** The ids in use are 1 .. [jobCounter], no two sleeping handlers share
    an id, and no sleeping handler's id has a digest yet. *)
Definition ids_fresh (s : Server) : Prop :=
  0 <= jobCounter (globals s) <= MaxInt32
  /\ (forall k, is_Some (hashes (globals s) !! k) -> 1 <= k <= jobCounter (globals s))
  /\ (forall k v, (k, v) ∈ sleeping s ->
        1 <= k <= jobCounter (globals s) /\ hashes (globals s) !! k = None)
  /\ NoDup (sleeping s).*1.

(** ** Connections: the [ConnState] hook and the [WaitGroup] of [main] *)

(** [http.ConnState]. *)
Inductive ConnState :=
  | StateNew | StateActive | StateIdle | StateHijacked | StateClosed.

(** [wg.Add(delta)] on the counter of a [sync.WaitGroup]: it panics when
    the counter would become negative. *)
Definition wg_Add (delta : Z) (counter : Z) : option Z :=
  if counter + delta <? 0 then None else Some (counter + delta).

(** [wg.Done()]. *)
Definition wg_Done (counter : Z) : option Z := wg_Add (-1) counter.

(** The [ConnState] hook of [main], lines 175-182. *)
Definition ConnState_hook (state : ConnState) (counter : Z) : option Z :=
  match state with
  | StateNew => wg_Add 1 counter
  | StateHijacked | StateClosed => wg_Done counter
  | _ => Some counter
  end.

(** The hook called for each state change, in order. *)
Fixpoint ConnState_hooks (changes : list (nat * ConnState)) (counter : Z) : option Z :=
  match changes with
  | [] => Some counter
  | (_, state) :: rest =>
      match ConnState_hook state counter with
      | Some counter' => ConnState_hooks rest counter'
      | None => None
      end
  end.

(** What [net/http] promises about the state changes it reports: a
    connection is reported new once, before anything else; it is reported
    active or idle only while it is open; and it is reported hijacked or
    closed once, which ends it.  The state is the set of open connections
    and the set of connections that have ended; [None] when a change breaks
    the promise. *)
Definition conn_change (sets : gset nat * gset nat) (change : nat * ConnState)
  : option (gset nat * gset nat) :=
  let '(open, ended) := sets in
  let '(c, state) := change in
  match state with
  | StateNew =>
      if decide (c ∈ open ∨ c ∈ ended) then None else Some ({[c]} ∪ open, ended)
  | StateActive | StateIdle =>
      if decide (c ∈ open) then Some (open, ended) else None
  | StateHijacked | StateClosed =>
      if decide (c ∈ open) then Some (open ∖ {[c]}, {[c]} ∪ ended) else None
  end.

Fixpoint conn_changes (sets : gset nat * gset nat) (changes : list (nat * ConnState))
  : option (gset nat * gset nat) :=
  match changes with
  | [] => Some sets
  | change :: rest =>
      match conn_change sets change with
      | Some sets' => conn_changes sets' rest
      | None => None
      end
  end.

(** [wg.Wait()] in the goroutine of [main] returns, and [os.Exit(1)] runs,
    when the counter is zero. *)
Definition Wait_returns (counter : Z) : bool := counter =? 0.

(** Two connections: one served and closed, one hijacked; a third still
    open. *)
Definition three_connections : list (nat * ConnState) :=
  [(0, StateNew); (1, StateNew); (0, StateActive); (0, StateIdle);
   (2, StateNew); (1, StateActive); (0, StateClosed); (1, StateHijacked)]%nat.

(** The server after the first submission has completed, and the outcomes
    of a submission followed by a signal. *)
Definition first_wake_server : Server :=
  Eval vm_compute in
    match run start (firstn 2 ten_sequential) with Some (s, _) => s | None => start end.

Definition stopped_outcomes : list Outcome :=
  Eval vm_compute in
    match run start submit_then_signal with Some (_, os) => os | None => [] end.

(** A request with a method that neither handler serves. *)
Definition put (path : string) : Request := mkRequest "PUT" path [].

(** Whether a goroutine inside [updateStats] has executed its increment of
    line 215, and how many of the goroutines have. *)
Definition incremented (pc : UpdatePc) : nat :=
  match pc with
  | AtStore _ _ _ | Returned => 1
  | _ => 0
  end.

Definition increments (pcs : list UpdatePc) : nat := sum_list (incremented <$> pcs).

(** What holds while goroutines run [updateStats] on a server whose
    published total was [T0] when they started: the published object and
    every object a goroutine is about to increment have a total between
    [T0] and [T0] plus the increments executed so far; a goroutine about to
    store holds a total between [T0 + 1] and that bound; and once a
    goroutine has returned the published total is above [T0]. *)
Definition race_invariant (T0 : Z) (pcs : list UpdatePc) (g : Globals) : Prop :=
  let a := Z.of_nat (increments pcs) in
  (exists p hs, hashStats g = Some p /\ mem g !! p = Some hs
                /\ T0 <= Total hs <= T0 + a
                /\ ((exists j, pcs !! j = Some Returned) -> T0 + 1 <= Total hs))
  /\ (forall j d h, pcs !! j = Some (AtAdd d h) ->
        exists hs, mem g !! h = Some hs /\ T0 <= Total hs <= T0 + a)
  /\ (forall j d h num, pcs !! j = Some (AtStore d h num) ->
        is_Some (mem g !! h) /\ T0 + 1 <= num <= T0 + a).

(** Three calls of [updateStats] in a schedule that interleaves all their
    steps. *)
Definition three_calls : list Z := [20000; 30000; 40000].
Definition mixed_schedule : list nat := [0; 1; 2; 2; 1; 0; 1; 0; 2]%nat.

(** ** Overlapping handlers *)

(** Two handlers that both pass line 86 before either reaches line 96:
    the two increments of [jobCounter], then the first [updateStats]. *)
Definition two_allocations_one_record : M unit :=
  atomic_AddInt32_jobCounter 1;;
  atomic_AddInt32_jobCounter 1;;
  updateStats 25000.

(** Two goroutines in [updateStats]: the first loads the pointer, the
    second runs its whole call, and only then the first increments. *)
Definition late_increment_schedule : list nat := [0; 1; 1; 1; 0]%nat.

Definition late_increment_pcs : list UpdatePc :=
  Eval vm_compute in
    match interleave late_increment_schedule two_calls initial with
    | Some (pcs, _, _) => pcs
    | None => []
    end.

Definition late_increment_globals : Globals :=
  Eval vm_compute in
    match interleave late_increment_schedule two_calls initial with
    | Some (_, g, _) => g
    | None => initial
    end.

Definition late_increment_effects : list Effect :=
  Eval vm_compute in
    match interleave late_increment_schedule two_calls initial with
    | Some (_, _, t) => t
    | None => []
    end.

(** * Properties *)

(** ** The digest on the first input of the repository's tests *)

Example digest_angryMonkey :
  digest_of "angryMonkey" =
  "ZEHhWB65gUlzdVwtDQArEyx+KVLzp/aTaRaPlBzYRIFj6vjFdqEb0Q5B8zVKCZ0vKbZPZklJz0Fd7su2A+gf7Q==".
Proof. vm_compute. reflexivity. Qed.

Example digest_long :
  digest_of "ReallyLongPassword-ReallyLongPassword-ReallyLongPassword-ReallyLongPassword-ReallyLongPassword-ReallyLongPassword-ReallyLongPassword-ReallyLongPassword-ReallyLongPassword-ReallyLongPassword-ReallyLongPassword-" =
  "KdRKHNcXx99I4FTpdQxqk4203FR1L8FwHDX0ovkuTB675g1c/BLMa78FSRguc6Ha/yIEF3+OxrFPnnSQqTML9A==".
Proof. vm_compute. reflexivity. Qed.

(** ** Strings *)

Example Split_examples :
  strings_Split "/hash/12" "/" = [""; "hash"; "12"]
  /\ strings_Split "/hash/" "/" = [""; "hash"; ""]
  /\ strings_Split "/hash" "/" = [""; "hash"]
  /\ strings_Split "/" "/" = [""; ""].
Proof. repeat split. Qed.

Example Atoi_examples :
  strconv_Atoi "12" = Some 12
  /\ strconv_Atoi "-12" = Some (-12)
  /\ strconv_Atoi "+007" = Some 7
  /\ strconv_Atoi "abc" = None
  /\ strconv_Atoi "1_000" = None
  /\ strconv_Atoi "-" = None
  /\ strconv_Atoi "9223372036854775807" = Some MaxInt64
  /\ strconv_Atoi "9223372036854775808" = None
  /\ strconv_Atoi "-9223372036854775808" = Some MinInt64.
Proof. repeat split. Qed.

Example Itoa_examples :
  strconv_Itoa 0 = "0"
  /\ strconv_Itoa 10 = "10"
  /\ strconv_Itoa 999999 = "999999"
  /\ strconv_Itoa MinInt32 = "-2147483648".
Proof. repeat split. Qed.

(** ** Machine integers *)

Lemma int32_small x : MinInt32 <= x <= MaxInt32 -> int32 x = x.
Proof.
  unfold int32, wrap_signed, MinInt32, MaxInt32. intros H.
  rewrite Z.mod_small; lia.
Qed.

Lemma int32_range x : MinInt32 <= int32 x <= MaxInt32.
Proof.
  unfold int32, wrap_signed, MinInt32, MaxInt32.
  pose proof (Z.mod_pos_bound (x + 2 ^ (32 - 1)) (2 ^ 32)). lia.
Qed.

Lemma int32_add_l x y : int32 (int32 x + y) = int32 (x + y).
Proof.
  unfold int32, wrap_signed.
  replace ((x + 2 ^ (32 - 1)) mod 2 ^ 32 - 2 ^ (32 - 1) + y + 2 ^ (32 - 1))
    with ((x + 2 ^ (32 - 1)) mod 2 ^ 32 + y) by lia.
  rewrite Zplus_mod_idemp_l. f_equal. f_equal. lia.
Qed.

Lemma int32_overflow : int32 (MaxInt32 + 1) = MinInt32.
Proof. reflexivity. Qed.

(** ** The monad *)

Ltac unfold_prims :=
  unfold http_Error, log_Println, log_Printf, time_Sleep,
    atomic_LoadInt32_stopping, atomic_StoreInt32_stopping,
    atomic_AddInt32_jobCounter, hashStats_Load, hashStats_Store,
    atomic_AddInt32_Total, deref, new_HashStat, hashes_index, hashes_assign,
    emit, panic, get_globals, put_globals.

Ltac unfold_monad := unfold mbind, M_bind, mret, M_ret.

Ltac run_monad := unfold_prims; unfold_monad; cbn.

Lemma http_Error_eq msg code g :
  http_Error msg code g = Some (tt, g, error_effects msg code).
Proof. reflexivity. Qed.

Lemma rejected_eq : rejected = error_effects "Server is stopping." StatusServiceUnavailable.
Proof. reflexivity. Qed.

(** [updateStats] in one equation: it panics only on a missing or dangling
    published pointer; otherwise it overwrites [Total] of the published
    object, allocates the next object and publishes it. *)
Lemma updateStats_eq d g :
  updateStats d g =
  match hashStats g with
  | Some p =>
      match mem g !! p with
      | Some old =>
          let num := int32 (Total old + 1) in
          let avg := ((Average old * (float64_of_int num - 1) + milliseconds d)
                      / float64_of_int num)%float in
          Some (tt,
                mkGlobals (hashes g) (jobCounter g) (Some (length (mem g))) (stopping g)
                  (<[p := mkHashStat num (Average old)]> (mem g) ++ [mkHashStat num avg]),
                [ELog "Adding duration (ms) %s to stats. New average: %s"
                   [AFloat (milliseconds d); AFloat avg]])
      | None => None
      end
  | None => None
  end.
Proof.
  unfold updateStats, milliseconds. run_monad.
  destruct (hashStats g) as [p|]; cbn; [|reflexivity].
  destruct (mem g !! p) as [old|] eqn:E; cbn; [|reflexivity].
  rewrite list_lookup_insert_eq by (eapply lookup_lt_Some; eauto).
  cbn. rewrite length_insert. reflexivity.
Qed.

Lemma hashAndEncode_awake_eq jid data g :
  hashAndEncode_awake jid data g =
  Some (tt,
        mkGlobals (<[jid := digest_of data]> (hashes g)) (jobCounter g)
          (hashStats g) (stopping g) (mem g),
        [ELog "Hashing and encoding: '%s'" [AStr data]; ELock; EUnlock]).
Proof. reflexivity. Qed.

Lemma hashAndEncode_eq jid data g :
  hashAndEncode jid data g =
  Some (tt,
        mkGlobals (<[jid := digest_of data]> (hashes g)) (jobCounter g)
          (hashStats g) (stopping g) (mem g),
        [ESleep 5; ELog "Hashing and encoding: '%s'" [AStr data]; ELock; EUnlock]).
Proof. reflexivity. Qed.

(** ** [HashHandler.ServeHTTP], branch by branch *)

#[local] Arguments updateStats : simpl never.
#[local] Arguments json_Marshal : simpl never.
#[local] Arguments sha512.Sum : simpl never.
#[local] Arguments base64.EncodeToString : simpl never.
#[local] Arguments strconv_Itoa : simpl never.
#[local] Arguments float64_of_int : simpl never.
#[local] Arguments milliseconds : simpl never.
#[local] Arguments bytes_of_string : simpl never.

Lemma HashHandler_body_stopping r elapsed g :
  stopping g = 1 ->
  HashHandler_body r elapsed g = Some (None, g, rejected).
Proof.
  intros H. unfold HashHandler_body. run_monad. rewrite H. reflexivity.
Qed.

Lemma accepted_true g r :
  accepted g r = true <->
  stopping g <> 1 /\ Method r = MethodPost /\ PostFormValue r passwordFormName <> "".
Proof.
  unfold accepted. rewrite !andb_true_iff, !negb_true_iff.
  rewrite Z.eqb_neq, String.eqb_eq, String.eqb_neq. tauto.
Qed.

(** An empty or absent value, while the server is not stopping. *)
Lemma HashHandler_body_empty r elapsed g :
  stopping g <> 1 -> Method r = MethodPost -> PostFormValue r passwordFormName = "" ->
  HashHandler_body r elapsed g =
  Some (None, g,
        [ELog "Begining hash request." []; ELog "Processing hash POST." []]
        ++ error_effects "A value must be submitted." StatusBadRequest).
Proof.
  intros Hs Hm Hv. unfold HashHandler_body. run_monad.
  apply Z.eqb_neq in Hs. rewrite Hs, Hm, Hv. reflexivity.
Qed.

(** A submission that becomes a job. *)
Lemma HashHandler_body_accepted r elapsed g p old :
  accepted g r = true -> hashStats g = Some p -> mem g !! p = Some old ->
  let jid := int32 (jobCounter g + 1) in
  let num := int32 (Total old + 1) in
  let avg := ((Average old * (float64_of_int num - 1) + milliseconds elapsed)
              / float64_of_int num)%float in
  HashHandler_body r elapsed g =
  Some (Some (jid, PostFormValue r passwordFormName),
        mkGlobals (hashes g) jid (Some (length (mem g))) (stopping g)
          (<[p := mkHashStat num (Average old)]> (mem g) ++ [mkHashStat num avg]),
        [ELog "Begining hash request." []; ELog "Processing hash POST." [];
         EWriteHeader StatusOK; EWrite (BText (strconv_Itoa jid));
         ELog "Hash request duration (nanoseconds): %s" [AStr (strconv_Itoa elapsed)];
         ELog "Adding duration (ms) %s to stats. New average: %s"
           [AFloat (milliseconds elapsed); AFloat avg];
         ELog "Finished hash request." []]).
Proof.
  intros Ha Hp Hold jid num avg.
  apply accepted_true in Ha as (Hs & Hm & Hv).
  apply Z.eqb_neq in Hs. apply String.eqb_neq in Hv.
  unfold HashHandler_body. run_monad.
  rewrite Hs, Hm, Hv. cbn.
  rewrite updateStats_eq. cbn. rewrite Hp, Hold. reflexivity.
Qed.

(** A retrieval, while the server is not stopping: the variables are left
    as they were and the effects follow the third field of the path. *)
Lemma HashHandler_body_get r elapsed g :
  stopping g <> 1 -> Method r = MethodGet ->
  let urlParts := strings_Split (Path r) "/" in
  HashHandler_body r elapsed g =
  Some (None, g,
        [ELog "Begining hash request." []; ELog "Processing hash GET." []] ++
        if (3 <=? length urlParts)%nat && negb (String.eqb (nth 2 urlParts "") "") then
          match strconv_Atoi (nth 2 urlParts "") with
          | None => error_effects "Unable to process the supplied job id." StatusBadRequest
          | Some jid =>
              [ELog "Looking for job id %d." [AInt jid]; ERLock; ERUnlock] ++
              let jidHash := default "" (hashes g !! int32 jid) in
              if String.eqb jidHash "" then
                error_effects "Unable to find the specified job id." StatusNotFound
              else
                [EWriteHeader StatusOK; EWrite (BText jidHash);
                 ELog "Finished hash request." []]
          end
        else error_effects "No job id specified." StatusBadRequest).
Proof.
  intros Hs Hm urlParts. apply Z.eqb_neq in Hs.
  unfold HashHandler_body. run_monad. rewrite Hs, Hm. cbn. fold urlParts.
  match goal with |- context [if ?c && ?d then _ else _] => destruct (c && d) end;
    [|reflexivity].
  destruct (strconv_Atoi (nth 2 urlParts "")) as [jid|]; [|reflexivity].
  cbn. destruct (String.eqb (default "" (hashes g !! int32 jid)) ""); reflexivity.
Qed.

(** Any other method, while the server is not stopping. *)
Lemma HashHandler_body_other r elapsed g :
  stopping g <> 1 -> Method r <> MethodGet -> Method r <> MethodPost ->
  HashHandler_body r elapsed g =
  Some (None, g,
        [ELog "Begining hash request." []] ++
        error_effects "Only POST and GET requests are supported." StatusMethodNotAllowed ++
        [ELog "Finished hash request." []]).
Proof.
  intros Hs Hg Hp. apply Z.eqb_neq in Hs.
  apply String.eqb_neq in Hg. apply String.eqb_neq in Hp.
  unfold HashHandler_body. run_monad. rewrite Hs, Hg, Hp. reflexivity.
Qed.

(** A request that is not accepted registers no deferred call and leaves
    the variables as they were. *)
Lemma HashHandler_body_not_accepted r elapsed g :
  accepted g r = false ->
  exists t, HashHandler_body r elapsed g = Some (None, g, t).
Proof.
  intros Ha.
  destruct (Z.eq_dec (stopping g) 1) as [Hs|Hs].
  { eexists. apply HashHandler_body_stopping, Hs. }
  destruct (String.eqb_spec (Method r) MethodGet) as [Hg|Hg].
  { eexists. apply HashHandler_body_get; assumption. }
  destruct (String.eqb_spec (Method r) MethodPost) as [Hp|Hp].
  - destruct (String.eqb_spec (PostFormValue r passwordFormName) "") as [Hv|Hv].
    + eexists. apply HashHandler_body_empty; assumption.
    + assert (accepted g r = true) by (apply accepted_true; auto). congruence.
  - eexists. apply HashHandler_body_other; assumption.
Qed.

(** ** [StatsHandler.ServeHTTP] *)

Lemma StatsHandler_stopping r g :
  stopping g = 1 -> StatsHandler_ServeHTTP r g = Some (tt, g, rejected).
Proof.
  intros H. unfold StatsHandler_ServeHTTP. run_monad. rewrite H. reflexivity.
Qed.

(** The statistics handler never changes the variables, and it returns
    whenever the published pointer is valid. *)
Lemma StatsHandler_reads r g p hs :
  hashStats g = Some p -> mem g !! p = Some hs ->
  exists t, StatsHandler_ServeHTTP r g = Some (tt, g, t).
Proof.
  intros Hp Hhs. unfold StatsHandler_ServeHTTP. run_monad.
  destruct (stopping g =? 1); [eexists; reflexivity|].
  destruct (String.eqb (Method r) MethodGet); cbn; [|eexists; reflexivity].
  rewrite Hp. cbn. rewrite Hhs. cbn.
  destruct (json_Marshal hs); eexists; reflexivity.
Qed.

(** A GET on [/stats] of a running server answers with the published
    object. *)
Lemma StatsHandler_get r g p hs :
  stopping g <> 1 -> Method r = MethodGet ->
  hashStats g = Some p -> mem g !! p = Some hs ->
  is_nan (Average hs) || is_infinity (Average hs) = false ->
  StatsHandler_ServeHTTP r g =
  Some (tt, g,
        [ELog "Begining stats request." []; ELog "Processing stats GET." [];
         EHeaderSet "Content-Type" "application/json"; EWrite (BJSON hs);
         ELog "Finished stats request." []]).
Proof.
  intros Hs Hm Hp Hhs Hfin. apply Z.eqb_neq in Hs.
  assert (Hj : json_Marshal hs = Some (BJSON hs))
    by (unfold json_Marshal; rewrite Hfin; reflexivity).
  unfold StatsHandler_ServeHTTP. run_monad.
  rewrite Hs, Hm. cbn. rewrite Hp. cbn. rewrite Hhs. cbn. rewrite Hj. reflexivity.
Qed.

(** ** Events *)

#[local] Arguments HashHandler_body : simpl never.
#[local] Arguments StatsHandler_ServeHTTP : simpl never.

Lemma until_sleep_accepted r elapsed g p old :
  accepted g r = true -> hashStats g = Some p -> mem g !! p = Some old ->
  let jid := int32 (jobCounter g + 1) in
  let num := int32 (Total old + 1) in
  let avg := ((Average old * (float64_of_int num - 1) + milliseconds elapsed)
              / float64_of_int num)%float in
  HashHandler_until_sleep r elapsed g =
  Some (Some (jid, PostFormValue r passwordFormName),
        mkGlobals (hashes g) jid (Some (length (mem g))) (stopping g)
          (<[p := mkHashStat num (Average old)]> (mem g) ++ [mkHashStat num avg]),
        [ELog "Begining hash request." []; ELog "Processing hash POST." [];
         EWriteHeader StatusOK; EWrite (BText (strconv_Itoa jid));
         ELog "Hash request duration (nanoseconds): %s" [AStr (strconv_Itoa elapsed)];
         ELog "Adding duration (ms) %s to stats. New average: %s"
           [AFloat (milliseconds elapsed); AFloat avg];
         ELog "Finished hash request." []; ESleep 5]).
Proof.
  intros Ha Hp Hold jid num avg.
  unfold HashHandler_until_sleep. unfold_monad.
  rewrite (HashHandler_body_accepted r elapsed g p old Ha Hp Hold). reflexivity.
Qed.

Lemma until_sleep_not_accepted r elapsed g :
  accepted g r = false ->
  exists t, HashHandler_body r elapsed g = Some (None, g, t)
            /\ HashHandler_until_sleep r elapsed g = Some (None, g, t).
Proof.
  intros Ha. destruct (HashHandler_body_not_accepted r elapsed g Ha) as [t Ht].
  exists t. split; [exact Ht|].
  unfold HashHandler_until_sleep. unfold_monad. rewrite Ht. cbn.
  rewrite !app_nil_r. reflexivity.
Qed.

Lemma step_not_accepted s r elapsed :
  accepted (globals s) r = false ->
  exists t, HashHandler_body r elapsed (globals s) = Some (None, globals s, t)
            /\ step s (HashRequest r elapsed) = Some (s, mkOutcome t None).
Proof.
  intros Ha. destruct (until_sleep_not_accepted r elapsed _ Ha) as (t & Hb & Ht).
  exists t. split; [exact Hb|]. cbn. rewrite Ht. cbn. rewrite app_nil_r.
  destruct s; reflexivity.
Qed.

(** The invariant is established by [main] and kept by every event. *)
Lemma consistent_initial : consistent initial.
Proof. exists 0%nat, (mkHashStat 0 0%float). repeat split; discriminate. Qed.

Lemma step_consistent s e s' o :
  consistent (globals s) -> step s e = Some (s', o) -> consistent (globals s').
Proof.
  intros (p & old & Hp & Hold & Htot & Hr) Hstep.
  destruct e as [r elapsed | i | r | ]; cbn in Hstep.
  - destruct (accepted (globals s) r) eqn:Ha.
    + rewrite (until_sleep_accepted r elapsed _ p old Ha Hp Hold) in Hstep.
      injection Hstep as <- <-. cbn.
      eexists _, _. split; [reflexivity|]. split.
      * cbn. rewrite lookup_app_r by (rewrite length_insert; lia).
        rewrite length_insert, Nat.sub_diag. reflexivity.
      * cbn. rewrite Htot. split; [reflexivity|apply int32_range].
    + destruct (until_sleep_not_accepted r elapsed _ Ha) as (t & _ & Ht).
      rewrite Ht in Hstep. injection Hstep as <- <-. cbn. exists p, old. auto.
  - destruct (sleeping s !! i) as [[jid data]|]; [|discriminate].
    rewrite hashAndEncode_awake_eq in Hstep. injection Hstep as <- <-. cbn.
    exists p, old. auto.
  - destruct (StatsHandler_reads r _ p old Hp Hold) as [t Ht].
    rewrite Ht in Hstep. injection Hstep as <- <-. cbn. exists p, old. auto.
  - destruct (awaiting_signal s).
    + cbn in Hstep. injection Hstep as <- <-. cbn. exists p, old. auto.
    + injection Hstep as <- <-. exists p, old. auto.
Qed.

(** No goroutine panics: an event fails only when it names a sleeping
    handler that does not exist. *)
Lemma step_total s e :
  consistent (globals s) ->
  (forall i, e = Wake i -> is_Some (sleeping s !! i)) ->
  exists s' o, step s e = Some (s', o).
Proof.
  intros (p & old & Hp & Hold & Htot & Hr) Hw.
  destruct e as [r elapsed | i | r | ]; cbn.
  - destruct (accepted (globals s) r) eqn:Ha.
    + rewrite (until_sleep_accepted r elapsed _ p old Ha Hp Hold). eauto.
    + destruct (until_sleep_not_accepted r elapsed _ Ha) as (t & _ & Ht).
      rewrite Ht. eauto.
  - destruct (Hw i eq_refl) as [[jid data] Hi]. rewrite Hi.
    rewrite hashAndEncode_awake_eq. eauto.
  - destruct (StatsHandler_reads r _ p old Hp Hold) as [t Ht]. rewrite Ht. eauto.
  - destruct (awaiting_signal s); cbn; eauto.
Qed.

Lemma run_consistent es : forall s s' os,
  consistent (globals s) -> run s es = Some (s', os) -> consistent (globals s').
Proof.
  induction es as [|e es IH]; intros s s' os Hc Hrun; cbn in Hrun.
  - injection Hrun as <- <-. exact Hc.
  - destruct (step s e) as [[s1 o]|] eqn:Hstep; [|discriminate].
    destruct (run s1 es) as [[s2 os2]|] eqn:Hrest; [|discriminate].
    injection Hrun as <- <-.
    eapply IH; [|exact Hrest]. eapply step_consistent; eauto.
Qed.

(** What an event does to the counter of jobs and to the published
    total. *)
Lemma step_counter s e s' o :
  consistent (globals s) -> step s e = Some (s', o) ->
  match deferred o with
  | Some (jid, _) =>
      jid = int32 (jobCounter (globals s) + 1) /\ jobCounter (globals s') = jid
  | None => jobCounter (globals s') = jobCounter (globals s)
  end.
Proof.
  intros (p & old & Hp & Hold & Htot & Hr) Hstep.
  destruct e as [r elapsed | i | r | ]; cbn in Hstep.
  - destruct (accepted (globals s) r) eqn:Ha.
    + rewrite (until_sleep_accepted r elapsed _ p old Ha Hp Hold) in Hstep.
      injection Hstep as <- <-. cbn. auto.
    + destruct (until_sleep_not_accepted r elapsed _ Ha) as (t & _ & Ht).
      rewrite Ht in Hstep. injection Hstep as <- <-. reflexivity.
  - destruct (sleeping s !! i) as [[jid data]|]; [|discriminate].
    rewrite hashAndEncode_awake_eq in Hstep. injection Hstep as <- <-. reflexivity.
  - destruct (StatsHandler_reads r _ p old Hp Hold) as [t Ht].
    rewrite Ht in Hstep. injection Hstep as <- <-. reflexivity.
  - destruct (awaiting_signal s).
    + cbn in Hstep. injection Hstep as <- <-. reflexivity.
    + injection Hstep as <- <-. reflexivity.
Qed.

(** ** Job ids *)

Lemma job_ids_cons o os :
  job_ids (o :: os) =
  match deferred o with
  | Some (jid, _) => jid :: job_ids os
  | None => job_ids os
  end.
Proof. unfold job_ids. cbn. destruct (deferred o) as [[jid v]|]; reflexivity. Qed.

(** The ids handed out from a server whose counter is [c] are [c + 1],
    [c + 2], ... as [int32] values. *)
Lemma run_job_ids es : forall s s' os,
  consistent (globals s) -> run s es = Some (s', os) ->
  let c := jobCounter (globals s) in
  let n := Z.of_nat (length (job_ids os)) in
  job_ids os = (fun k => int32 (c + k)) <$> seqZ 1 n
  /\ int32 (jobCounter (globals s')) = int32 (c + n).
Proof.
  induction es as [|e es IH]; intros s s' os Hc Hrun; cbn in Hrun.
  - injection Hrun as <- <-. cbn. split; [reflexivity|]. f_equal. lia.
  - destruct (step s e) as [[s1 o]|] eqn:Hstep; [|discriminate].
    destruct (run s1 es) as [[s2 os2]|] eqn:Hrest; [|discriminate].
    injection Hrun as <- <-.
    pose proof (step_consistent _ _ _ _ Hc Hstep) as Hc1.
    pose proof (step_counter _ _ _ _ Hc Hstep) as Hcnt.
    destruct (IH _ _ _ Hc1 Hrest) as [Hids Hfin]. cbn zeta in Hids, Hfin.
    rewrite job_ids_cons. destruct (deferred o) as [[jid v]|].
    + destruct Hcnt as [Hjid Hnew]. cbn [length]. rewrite Hnew in Hids, Hfin.
      rewrite Nat2Z.inj_succ.
      set (n := Z.of_nat (length (job_ids os2))) in *.
      assert (Hn : 0 <= n) by lia. clearbody n.
      split.
      * rewrite seqZ_cons by lia. cbn. f_equal; [exact Hjid|].
        rewrite Z.pred_succ, Hids.
        replace (Z.succ 1) with (1 + 1) by lia. rewrite <- fmap_add_seqZ.
        rewrite <- list_fmap_compose. apply list_fmap_ext. intros i k _. cbn.
        rewrite Hjid, int32_add_l. f_equal. lia.
      * rewrite Hfin, Hjid, int32_add_l. f_equal. lia.
    + rewrite Hcnt in Hids, Hfin. split; assumption.
Qed.

Lemma seqZ_strictly_increasing m n : strictly_increasing (seqZ m n).
Proof.
  intros i j a b Hij Ha Hb.
  apply lookup_seqZ in Ha as [-> _]. apply lookup_seqZ in Hb as [-> _]. lia.
Qed.

Lemma step_answers_with_id s e s' o :
  consistent (globals s) -> step s e = Some (s', o) -> answers_with_id o.
Proof.
  intros (p & old & Hp & Hold & Htot & Hr) Hstep jid value Hd.
  destruct e as [r elapsed | i | r | ]; cbn in Hstep.
  - destruct (accepted (globals s) r) eqn:Ha.
    + rewrite (until_sleep_accepted r elapsed _ p old Ha Hp Hold) in Hstep.
      injection Hstep as <- <-. cbn in Hd. injection Hd as <- <-.
      split; reflexivity.
    + destruct (until_sleep_not_accepted r elapsed _ Ha) as (t & _ & Ht).
      rewrite Ht in Hstep. injection Hstep as <- <-. discriminate.
  - destruct (sleeping s !! i) as [[jid' data]|]; [|discriminate].
    rewrite hashAndEncode_awake_eq in Hstep. injection Hstep as <- <-. discriminate.
  - destruct (StatsHandler_reads r _ p old Hp Hold) as [t Ht].
    rewrite Ht in Hstep. injection Hstep as <- <-. discriminate.
  - destruct (awaiting_signal s).
    + cbn in Hstep. injection Hstep as <- <-. discriminate.
    + injection Hstep as <- <-. discriminate.
Qed.

Lemma run_answers_with_id es : forall s s' os,
  consistent (globals s) -> run s es = Some (s', os) -> Forall answers_with_id os.
Proof.
  induction es as [|e es IH]; intros s s' os Hc Hrun; cbn in Hrun.
  - injection Hrun as <- <-. constructor.
  - destruct (step s e) as [[s1 o]|] eqn:Hstep; [|discriminate].
    destruct (run s1 es) as [[s2 os2]|] eqn:Hrest; [|discriminate].
    injection Hrun as <- <-. constructor.
    + eapply step_answers_with_id; eauto.
    + eapply IH; [|exact Hrest]. eapply step_consistent; eauto.
Qed.

(** C2, as amended: in every execution that hands out at most
    [MaxInt32] job ids, the ids handed out are exactly 1, 2, ..., n in that
    order, hence start at 1, increase strictly and are pairwise distinct,
    and each is sent as the body of a 200 response. *)
Theorem job_ids_count_up es s os :
  run start es = Some (s, os) ->
  Z.of_nat (length (job_ids os)) <= MaxInt32 ->
  job_ids os = seqZ 1 (Z.of_nat (length (job_ids os)))
  /\ strictly_increasing (job_ids os)
  /\ NoDup (job_ids os)
  /\ Forall answers_with_id os.
Proof.
  intros Hrun Hbound.
  destruct (run_job_ids es start s os consistent_initial Hrun) as [Hids _].
  cbn zeta in Hids. change (jobCounter (globals start)) with 0 in Hids.
  assert (E : job_ids os = seqZ 1 (Z.of_nat (length (job_ids os)))).
  { rewrite Hids at 1. rewrite <- (list_fmap_id (seqZ 1 _)) at 2.
    apply Forall_fmap_ext_1, Forall_seqZ. intros k Hk. cbn.
    apply int32_small. unfold MinInt32, MaxInt32 in *. lia. }
  split; [exact E|]. split; [|split].
  - rewrite E. apply seqZ_strictly_increasing.
  - rewrite E. apply NoDup_seqZ.
  - exact (run_answers_with_id es start s os consistent_initial Hrun).
Qed.

(** Accepted submissions one after the other: none fails, each gets an
    id. *)
Lemma run_submissions value elapsed n : forall s,
  value <> "" -> consistent (globals s) -> stopping (globals s) <> 1 ->
  exists s' os,
    run s (replicate n (HashRequest (post value) elapsed)) = Some (s', os)
    /\ length (job_ids os) = n.
Proof.
  intros s Hv. revert s.
  induction n as [|n IH]; intros s Hc Hs; cbn [replicate run].
  - exists s, []. split; reflexivity.
  - pose proof Hc as (p & old & Hp & Hold & Htot & Hr).
    assert (Ha : accepted (globals s) (post value) = true).
    { apply accepted_true. split; [exact Hs|]. split; [reflexivity|exact Hv]. }
    destruct (step s (HashRequest (post value) elapsed)) as [[s1 o]|] eqn:Hstep.
    2:{ cbn in Hstep.
        rewrite (until_sleep_accepted _ elapsed _ p old Ha Hp Hold) in Hstep.
        discriminate. }
    pose proof (step_consistent _ _ _ _ Hc Hstep) as Hc1.
    assert (Hs1 : stopping (globals s1) <> 1 /\ is_Some (deferred o)).
    { cbn in Hstep.
      rewrite (until_sleep_accepted _ elapsed _ p old Ha Hp Hold) in Hstep.
      injection Hstep as <- <-. cbn. split; [exact Hs|eauto]. }
    destruct Hs1 as [Hs1 [[jid v] Hd]].
    destruct (IH s1 Hc1 Hs1) as (s2 & os & Hrun & Hlen).
    rewrite Hrun. exists s2, (o :: os). split; [reflexivity|].
    rewrite job_ids_cons, Hd. cbn. rewrite Hlen. reflexivity.
Qed.

(** After [MaxInt32] submissions the next id is [MinInt32]. *)
Lemma job_ids_overflow n s os :
  Z.of_nat n = MaxInt32 + 1 ->
  run start (replicate n (HashRequest (post "a") 0)) = Some (s, os) ->
  length (job_ids os) = n ->
  ~ strictly_increasing (job_ids os).
Proof.
  intros Hn Hrun Hlen Hinc.
  destruct (run_job_ids _ start s os consistent_initial Hrun) as [Hids _].
  cbn zeta in Hids. change (jobCounter (globals start)) with 0 in Hids.
  rewrite Hlen, Hn in Hids.
  destruct n as [|[|m]]; [discriminate Hn|discriminate Hn|].
  assert (Hm : Z.of_nat m = MaxInt32 - 1) by lia.
  assert (H1 : job_ids os !! m = Some MaxInt32).
  { rewrite Hids, list_lookup_fmap, lookup_seqZ_lt by lia. cbn.
    rewrite Hm. reflexivity. }
  assert (H2 : job_ids os !! S m = Some MinInt32).
  { rewrite Hids, list_lookup_fmap, lookup_seqZ_lt by lia. cbn [fmap option_fmap option_map].
    f_equal. replace (0 + (1 + Z.of_nat (S m))) with (MaxInt32 + 1) by lia.
    reflexivity. }
  pose proof (Hinc m (S m) _ _ (Nat.lt_succ_diag_r m) H1 H2) as Hlt.
  unfold MaxInt32, MinInt32 in Hlt. lia.
Qed.

(** C2 as stated fails: after 2^31 accepted submissions the ids handed
    out are no longer increasing, because [jobCounter] is an [int32] that
    [atomic.AddInt32] wraps around to [MinInt32]. *)
Lemma job_ids_not_always_increasing :
  ~ (forall es s os,
       run start es = Some (s, os) ->
       strictly_increasing (job_ids os) /\ NoDup (job_ids os)).
Proof.
  intros H.
  set (n := Z.to_nat (MaxInt32 + 1)).
  assert (Hn : Z.of_nat n = MaxInt32 + 1) by (apply Z2Nat.id; discriminate).
  clearbody n.
  destruct (run_submissions "a" 0 n start) as (s & os & Hrun & Hlen);
    [discriminate|apply consistent_initial|discriminate|].
  destruct (H _ _ _ Hrun) as [Hinc _].
  exact (job_ids_overflow n s os Hn Hrun Hlen Hinc).
Qed.

Lemma job_ids_count_up_witness :
  job_ids ten_outcomes = seqZ 1 (Z.of_nat (length (job_ids ten_outcomes)))
  /\ strictly_increasing (job_ids ten_outcomes)
  /\ NoDup (job_ids ten_outcomes)
  /\ Forall answers_with_id ten_outcomes.
Proof.
  apply (job_ids_count_up ten_sequential ten_server ten_outcomes).
  - vm_compute. reflexivity.
  - vm_compute. discriminate.
Defined.

(** Ten sequential submissions of distinct values get the ids 1 to 10 in
    that order. *)
Example ten_sequential_ids :
  run start ten_sequential = Some (ten_server, ten_outcomes)
  /\ job_ids ten_outcomes = [1; 2; 3; 4; 5; 6; 7; 8; 9; 10].
Proof. split; vm_compute; reflexivity. Qed.

(** ** The two servers compute the same digest *)

(** C10: for every input, the string returned by [encryptAndEncode] of the
    basic server is the string that [hashAndEncode] of the concurrent
    server stores under the job id, namely the standard base64 encoding of
    the SHA-512 hash of the bytes of the input. *)
Theorem digests_agree (data : string) (jid : Z) (g1 g2 : Globals) :
  exists d t1 g2' t2,
    encryptAndEncode data g1 = Some (d, g1, t1)
    /\ hashAndEncode jid data g2 = Some (tt, g2', t2)
    /\ hashes g2' !! jid = Some d
    /\ d = base64.EncodeToString (sha512.Sum (bytes_of_string data)).
Proof.
  eexists _, _, _, _. split; [reflexivity|].
  split; [apply hashAndEncode_eq|]. split; [|reflexivity].
  cbn. apply lookup_insert_eq.
Qed.

(** The digest is never the empty string: [sha512.Sum] returns 64 bytes
    and their encoding has 88 characters. *)
Lemma sha512_Sum_length msg : length (sha512.Sum msg) = 64%nat.
Proof.
  unfold sha512.Sum.
  destruct (sha512.blocks _ sha512.init (sha512.pad msg)). reflexivity.
Qed.

Lemma base64_encode_length fuel : forall src,
  (length src <= fuel)%nat ->
  String.length (base64.encode fuel src) = (4 * ((length src + 2) / 3))%nat.
Proof.
  induction fuel as [|fuel IH]; intros src Hlen.
  - destruct src; [reflexivity|cbn in Hlen; lia].
  - destruct src as [|b0 [|b1 [|b2 rest]]]; try reflexivity.
    cbn [base64.encode String.length length].
    rewrite IH by (cbn in Hlen; lia).
    replace (S (S (S (length rest))) + 2)%nat with (length rest + 2 + 1 * 3)%nat by lia.
    rewrite Nat.div_add by lia. lia.
Qed.

Lemma digest_length data : String.length (digest_of data) = 88%nat.
Proof.
  unfold base64.EncodeToString.
  rewrite base64_encode_length, sha512_Sum_length by lia. reflexivity.
Qed.

Lemma digest_nonempty data : digest_of data <> "".
Proof.
  intros H. pose proof (digest_length data) as Hl. rewrite H in Hl. discriminate.
Qed.

Lemma PasswordHandler_post value g :
  value <> "" ->
  PasswordHandler_ServeHTTP (post value) g =
  Some (tt, g,
        [ESleep 5;
         ELog ("Processing: '%s'" ++ String (ascii_of_nat 10) "")%string [AStr value];
         EWrite (BText (digest_of value))]).
Proof.
  intros Hv. apply String.eqb_neq in Hv.
  unfold PasswordHandler_ServeHTTP, encryptAndEncode. run_monad. rewrite Hv.
  reflexivity.
Qed.

(** ** Shutdown *)

(** An event leaves the flag as it is or sets it to 1. *)
Lemma step_stopping s e s' o :
  consistent (globals s) -> step s e = Some (s', o) ->
  stopping (globals s') = stopping (globals s) \/ stopping (globals s') = 1.
Proof.
  intros (p & old & Hp & Hold & Htot & Hr) Hstep.
  destruct e as [r elapsed | i | r | ]; cbn in Hstep.
  - destruct (accepted (globals s) r) eqn:Ha.
    + rewrite (until_sleep_accepted r elapsed _ p old Ha Hp Hold) in Hstep.
      injection Hstep as <- <-. left. reflexivity.
    + destruct (until_sleep_not_accepted r elapsed _ Ha) as (t & _ & Ht).
      rewrite Ht in Hstep. injection Hstep as <- <-. left. reflexivity.
  - destruct (sleeping s !! i) as [[jid data]|]; [|discriminate].
    rewrite hashAndEncode_awake_eq in Hstep. injection Hstep as <- <-.
    left. reflexivity.
  - destruct (StatsHandler_reads r _ p old Hp Hold) as [t Ht].
    rewrite Ht in Hstep. injection Hstep as <- <-. left. reflexivity.
  - destruct (awaiting_signal s).
    + cbn in Hstep. injection Hstep as <- <-. right. reflexivity.
    + injection Hstep as <- <-. left. reflexivity.
Qed.

(** Along an execution the flag keeps its first value for a while and is
    1 from then on. *)
Lemma flags_cons s e es :
  flags s (e :: es) =
  stopping (globals s) ::
    match step s e with
    | Some (s1, _) => flags s1 es
    | None => []
    end.
Proof.
  unfold flags. cbn [states]. rewrite fmap_cons.
  destruct (step s e) as [[s1 o]|]; reflexivity.
Qed.

Lemma flags_shape es : forall s,
  consistent (globals s) ->
  exists n m, flags s es = replicate n (stopping (globals s)) ++ replicate m 1.
Proof.
  induction es as [|e es IH]; intros s Hc.
  - exists 1%nat, 0%nat. reflexivity.
  - rewrite flags_cons. destruct (step s e) as [[s1 o]|] eqn:Hstep.
    + destruct (IH s1 (step_consistent _ _ _ _ Hc Hstep)) as (n & m & E).
      rewrite E.
      destruct (step_stopping _ _ _ _ Hc Hstep) as [Hsame|Hone].
      * rewrite Hsame. exists (S n), m. reflexivity.
      * rewrite Hone. exists 1%nat, (n + m)%nat.
        rewrite replicate_add. reflexivity.
    + exists 1%nat, 0%nat. reflexivity.
Qed.

Lemma states_consistent es : forall s i s',
  consistent (globals s) -> states s es !! i = Some s' -> consistent (globals s').
Proof.
  induction es as [|e es IH]; intros s i s' Hc Hi; cbn [states] in Hi.
  - destruct i; [|discriminate]. injection Hi as <-. exact Hc.
  - destruct i as [|i]; [injection Hi as <-; exact Hc|]. cbn in Hi.
    destruct (step s e) as [[s1 o]|] eqn:Hstep; [|discriminate].
    eapply IH; [|exact Hi]. eapply step_consistent; eauto.
Qed.

(** A stopping server rejects every request at both handlers, with
    [http.Error] as the only effect and without touching the server. *)
Lemma stopping_rejects s r elapsed :
  stopping (globals s) = 1 ->
  step s (HashRequest r elapsed) = Some (s, mkOutcome rejected None)
  /\ step s (StatsRequest r) = Some (s, mkOutcome rejected None).
Proof.
  intros Hs. split; cbn.
  - unfold HashHandler_until_sleep. unfold_monad.
    rewrite (HashHandler_body_stopping r elapsed _ Hs). cbn.
    rewrite app_nil_r. destruct s; reflexivity.
  - rewrite (StatsHandler_stopping r _ Hs). destruct s; reflexivity.
Qed.

(** C6: along every execution the flag [stopping] is 0 up to some event and
    1 from then on, so it changes at most once and never goes back; and in
    every state of the execution in which it is 1, a request to either
    handler (submission, retrieval or statistics) gets the 503 response
    of [http.Error] and nothing else happens: no log line, no change of
    any variable, no deferred call. *)
Theorem stopping_once_and_for_all (es : list Event) :
  (exists n m, flags start es = replicate n 0 ++ replicate m 1)
  /\ (forall i s, states start es !! i = Some s -> stopping (globals s) = 1 ->
      forall r elapsed,
        step s (HashRequest r elapsed) = Some (s, mkOutcome rejected None)
        /\ step s (StatsRequest r) = Some (s, mkOutcome rejected None))
  /\ Code (response_of rejected) = StatusServiceUnavailable
  /\ Body (response_of rejected)
     = [BText ("Server is stopping." ++ String (ascii_of_nat 10) "")%string].
Proof.
  split; [exact (flags_shape es start consistent_initial)|].
  split; [|split; reflexivity].
  intros i s _ Hs r elapsed. apply stopping_rejects, Hs.
Qed.

Lemma stopping_once_and_for_all_witness :
  step stopped_server (HashRequest (post "password") 25000)
    = Some (stopped_server, mkOutcome rejected None)
  /\ step stopped_server (StatsRequest (get "/stats"))
    = Some (stopped_server, mkOutcome rejected None).
Proof.
  destruct (stopping_once_and_for_all submit_then_signal) as (_ & H & _).
  assert (Hi : states start submit_then_signal !! 2%nat = Some stopped_server)
    by (vm_compute; reflexivity).
  split.
  - apply (H 2%nat stopped_server Hi eq_refl (post "password") 25000).
  - apply (H 2%nat stopped_server Hi eq_refl (get "/stats") 0).
Defined.

(** ** Empty submissions *)

(** C5, as amended: a submission whose value is empty or absent leaves the
    server as it was (no job id is allocated, [jobCounter] and [hashes]
    are unchanged, nothing is deferred); the response is 400 while the
    server accepts requests and 503 once it is stopping. *)
Theorem empty_submission_rejected (s : Server) (r : Request) (elapsed : Z) :
  Method r = MethodPost -> PostFormValue r passwordFormName = "" ->
  exists t,
    step s (HashRequest r elapsed) = Some (s, mkOutcome t None)
    /\ HashHandler_ServeHTTP r elapsed (globals s) = Some (tt, globals s, t)
    /\ Code (response_of t)
       = if stopping (globals s) =? 1 then StatusServiceUnavailable
         else StatusBadRequest.
Proof.
  intros Hm Hv.
  assert (Ha : accepted (globals s) r = false).
  { unfold accepted. rewrite Hv. cbn. apply andb_false_r. }
  destruct (step_not_accepted s r elapsed Ha) as (t & Hb & Hstep).
  exists t. split; [exact Hstep|]. split.
  { unfold HashHandler_ServeHTTP. unfold_monad. rewrite Hb. cbn.
    rewrite app_nil_r. reflexivity. }
  destruct (Z.eqb_spec (stopping (globals s)) 1) as [Hs|Hs].
  - rewrite (HashHandler_body_stopping r elapsed _ Hs) in Hb.
    injection Hb as <-. reflexivity.
  - rewrite (HashHandler_body_empty r elapsed _ Hs Hm Hv) in Hb.
    injection Hb as <-. reflexivity.
Qed.

Lemma empty_submission_rejected_witness :
  exists t,
    step start (HashRequest (post "") 25000) = Some (start, mkOutcome t None)
    /\ HashHandler_ServeHTTP (post "") 25000 (globals start)
       = Some (tt, globals start, t)
    /\ Code (response_of t) = StatusBadRequest.
Proof.
  apply (empty_submission_rejected start (post "") 25000); reflexivity.
Defined.

(** C5 as stated fails: an empty submission that reaches a stopping server
    is answered with 503, not 400. *)
Lemma empty_submission_not_always_400 :
  ~ (forall es s os r elapsed,
       run start es = Some (s, os) ->
       Method r = MethodPost -> PostFormValue r passwordFormName = "" ->
       exists t, step s (HashRequest r elapsed) = Some (s, mkOutcome t None)
                 /\ Code (response_of t) = StatusBadRequest).
Proof.
  intros H.
  destruct (H [Signal] (mkServer (mkGlobals ∅ 0 (Some 0%nat) 1 [mkHashStat 0 0%float]) [] false)
              [mkOutcome [ELog "Waiting for requests to finish." []] None]
              (post "") 0 eq_refl eq_refl eq_refl) as (t & Hstep & Hcode).
  vm_compute in Hstep. injection Hstep as <-. vm_compute in Hcode. discriminate.
Qed.

(** ** The published total *)

(** Only an accepted request defers a call. *)
Lemma step_deferred s r elapsed s' o :
  consistent (globals s) -> step s (HashRequest r elapsed) = Some (s', o) ->
  (is_Some (deferred o) <-> accepted (globals s) r = true).
Proof.
  intros (p & old & Hp & Hold & Htot & Hr) Hstep. cbn in Hstep.
  destruct (accepted (globals s) r) eqn:Ha.
  - rewrite (until_sleep_accepted r elapsed _ p old Ha Hp Hold) in Hstep.
    injection Hstep as <- <-. cbn. split; eauto.
  - destruct (until_sleep_not_accepted r elapsed _ Ha) as (t & _ & Ht).
    rewrite Ht in Hstep. injection Hstep as <- <-. cbn.
    split; [intros [x Hx]; discriminate|discriminate].
Qed.

(** Every job id handed out belongs to a digest that has been stored or
    to a handler that still sleeps in its deferred call. *)
Lemma run_pending es : forall s s' os,
  consistent (globals s) -> run s es = Some (s', os) ->
  (length (job_ids os) + length (sleeping s) = completed es + length (sleeping s'))%nat.
Proof.
  induction es as [|e es IH]; intros s s' os Hc Hrun; cbn [run] in Hrun.
  - injection Hrun as <- <-. reflexivity.
  - destruct (step s e) as [[s1 o]|] eqn:Hstep; [|discriminate].
    destruct (run s1 es) as [[s2 os2]|] eqn:Hrest; [|discriminate].
    injection Hrun as <- <-.
    pose proof (IH _ _ _ (step_consistent _ _ _ _ Hc Hstep) Hrest) as HI.
    rewrite job_ids_cons. unfold completed in *. cbn [List.filter].
    pose proof Hc as (p & old & Hp & Hold & Htot & Hr).
    destruct e as [r elapsed | i | r | ]; cbn in Hstep; cbn [is_Wake].
    + destruct (accepted (globals s) r) eqn:Ha.
      * rewrite (until_sleep_accepted r elapsed _ p old Ha Hp Hold) in Hstep.
        injection Hstep as <- <-. cbn in HI |- *. rewrite length_app in HI.
        cbn in HI. lia.
      * destruct (until_sleep_not_accepted r elapsed _ Ha) as (t & _ & Ht).
        rewrite Ht in Hstep. injection Hstep as <- <-. cbn in HI |- *.
        rewrite app_nil_r in HI. exact HI.
    + destruct (sleeping s !! i) as [[jid data]|] eqn:Hi; [|discriminate].
      rewrite hashAndEncode_awake_eq in Hstep. injection Hstep as <- <-.
      cbn in HI |- *. rewrite length_delete in HI by eauto.
      apply lookup_lt_Some in Hi. lia.
    + destruct (StatsHandler_reads r _ p old Hp Hold) as [t Ht].
      rewrite Ht in Hstep. injection Hstep as <- <-. exact HI.
    + destruct (awaiting_signal s).
      * cbn in Hstep. injection Hstep as <- <-. exact HI.
      * injection Hstep as <- <-. exact HI.
Qed.

(** C1, as amended: in an execution whose handler bodies run one at a
    time (the executions of [run]: no step of another handler falls
    between the first line of a handler and the end of its call of
    [updateStats], while the deferred calls sleep and finish in any order
    in between), at every point between handler bodies the published
    total is the number of submissions accepted so far (as an [int32]; the
    number itself while it is at most [MaxInt32]), that is the number of
    digests computed and stored plus the number of handlers that still
    sleep in the deferred call; it is the number of completed digest
    computations exactly when no handler is asleep. *)
Theorem total_counts_submissions es s os :
  run start es = Some (s, os) ->
  exists hs,
    published (globals s) = Some hs
    /\ Total hs = int32 (Z.of_nat (length (job_ids os)))
    /\ length (job_ids os) = (completed es + length (sleeping s))%nat
    /\ (Z.of_nat (length (job_ids os)) <= MaxInt32 ->
        Total hs = Z.of_nat (completed es) + Z.of_nat (length (sleeping s))).
Proof.
  intros Hrun.
  destruct (run_consistent es start s os consistent_initial Hrun)
    as (p & hs & Hp & Hhs & Htot & Hr).
  destruct (run_job_ids es start s os consistent_initial Hrun) as [_ Hfin].
  pose proof (run_pending es start s os consistent_initial Hrun) as Hpend.
  cbn zeta in Hfin. change (jobCounter (globals start)) with 0 in Hfin.
  change (sleeping start) with (@nil (Z * string)) in Hpend.
  cbn [length] in Hpend. rewrite Nat.add_0_r in Hpend.
  rewrite (int32_small _ Hr), Z.add_0_l in Hfin.
  exists hs. split; [unfold published; rewrite Hp; exact Hhs|].
  split; [congruence|]. split; [exact Hpend|].
  intros Hb. rewrite Htot, Hfin, <- Nat2Z.inj_add, <- Hpend. apply int32_small.
  unfold MinInt32, MaxInt32 in *. lia.
Qed.

Lemma total_counts_submissions_witness :
  exists hs,
    published (globals ten_server) = Some hs
    /\ Total hs = int32 (Z.of_nat (length (job_ids ten_outcomes)))
    /\ length (job_ids ten_outcomes)
       = (completed ten_sequential + length (sleeping ten_server))%nat
    /\ (Z.of_nat (length (job_ids ten_outcomes)) <= MaxInt32 ->
        Total hs = Z.of_nat (completed ten_sequential)
                   + Z.of_nat (length (sleeping ten_server))).
Proof.
  apply (total_counts_submissions ten_sequential ten_server ten_outcomes).
  vm_compute. reflexivity.
Defined.

(** C1 as stated fails: when a submission has been answered and its
    handler sleeps in the deferred [hashAndEncode], the published total is
    already 1 while no digest has been computed or stored. *)
Lemma total_is_not_completed :
  ~ (forall es s os,
       run start es = Some (s, os) ->
       exists hs, published (globals s) = Some hs
                  /\ Total hs = Z.of_nat (completed es)).
Proof.
  intros H.
  destruct (run start [HashRequest (post "angryMonkey") 25000]) as [[s os]|] eqn:Hrun;
    [|vm_compute in Hrun; discriminate].
  destruct (H _ _ _ Hrun) as (hs & Hpub & Htot).
  vm_compute in Hrun. injection Hrun as <- <-.
  vm_compute in Hpub. injection Hpub as <-. vm_compute in Htot. discriminate.
Qed.

(** In that state the store of digests is still empty. *)
Example submitted_not_completed :
  exists s os hs,
    run start [HashRequest (post "angryMonkey") 25000] = Some (s, os)
    /\ published (globals s) = Some hs /\ Total hs = 1
    /\ hashes (globals s) = ∅ /\ sleeping s = [(1, "angryMonkey")].
Proof. eexists _, _, _. repeat split; vm_compute; reflexivity. Qed.

(** ** Snapshots *)




(** ** The running average *)

(** Latencies recorded one after the other, from a published object
    [old]: the total goes up by one per call and the average follows the
    formula of line 217, as long as the total stays an [int32]. *)
Lemma record_all_from ds : forall g p old,
  hashStats g = Some p -> mem g !! p = Some old ->
  0 <= Total old -> Total old + Z.of_nat (length ds) <= MaxInt32 ->
  exists g' t,
    record_all ds g = Some (tt, g', t)
    /\ published g' =
       Some (mkHashStat (Total old + Z.of_nat (length ds))
               (mean_from (reference_step PrimFloat.add PrimFloat.sub PrimFloat.mul
                             PrimFloat.div 1%float float64_of_int)
                  (Average old) (Total old) (map milliseconds ds))).
Proof.
  induction ds as [|d ds IH]; intros g p old Hp Hold H0 Hmax.
  - exists g, []. split; [reflexivity|]. unfold published. rewrite Hp. cbn.
    rewrite Hold, Z.add_0_r. destruct old; reflexivity.
  - cbn [length] in Hmax. rewrite Nat2Z.inj_succ in Hmax.
    cbn [record_all]. unfold_monad. rewrite updateStats_eq, Hp, Hold. cbn zeta.
    assert (Hnum : int32 (Total old + 1) = Total old + 1)
      by (apply int32_small; unfold MinInt32, MaxInt32 in *; lia).
    rewrite Hnum.
    edestruct (IH (mkGlobals (hashes g) (jobCounter g) (Some (length (mem g))) (stopping g)
                   (<[p := mkHashStat (Total old + 1) (Average old)]> (mem g) ++
                    [mkHashStat (Total old + 1)
                       ((Average old * (float64_of_int (Total old + 1) - 1)
                         + milliseconds d) / float64_of_int (Total old + 1))%float])))
      as (g' & t & Hrec & Hpub).
    + reflexivity.
    + cbn. rewrite lookup_app_r by (rewrite length_insert; lia).
      rewrite length_insert, Nat.sub_diag. reflexivity.
    + cbn. lia.
    + cbn. lia.
    + rewrite Hrec. eexists _, _. split; [reflexivity|]. rewrite Hpub.
      cbn [Total Average length map mean_from]. rewrite Nat2Z.inj_succ.
      f_equal. f_equal. lia.
Qed.

(** In exact arithmetic the formula of line 217 and the incremental mean
    give the same number at every step. *)
Lemma Q_steps_agree (avg avg' : Q) (n : Z) (l : Q) :
  0 <= n -> (avg == avg')%Q ->
  (reference_step Qplus Qminus Qmult Qdiv 1%Q inject_Z avg (n + 1) l
   == incremental_step Qplus Qminus Qdiv inject_Z avg' (n + 1) l)%Q.
Proof.
  intros Hn Ha. unfold reference_step, incremental_step. rewrite Ha.
  assert (Hne : ~ (inject_Z (n + 1) == 0)%Q).
  { unfold Qeq. cbn. lia. }
  field. exact Hne.
Qed.

Lemma Q_means_agree_from ls : forall (avg avg' : Q) (n : Z),
  0 <= n -> (avg == avg')%Q ->
  (mean_from (reference_step Qplus Qminus Qmult Qdiv 1%Q inject_Z) avg n ls
   == mean_from (incremental_step Qplus Qminus Qdiv inject_Z) avg' n ls)%Q.
Proof.
  induction ls as [|l ls IH]; intros avg avg' n Hn Ha; cbn [mean_from].
  - exact Ha.
  - apply IH; [lia|]. apply Q_steps_agree; assumption.
Qed.

(** C3, as amended: after [n <= MaxInt32] latencies recorded one at a time
    from the initial snapshot, the published total is [n] and the
    published average is the [float64] value of the reference formula
    [avg = (oldAvg * (n - 1) + latencyMs) / n] applied latency by latency;
    evaluated in exact rational arithmetic, that formula and the
    incremental mean [avg + (latencyMs - avg) / n] give the same value. *)
Theorem average_follows_reference_formula (ds : list Z) :
  Z.of_nat (length ds) <= MaxInt32 ->
  (exists g t,
     record_all ds initial = Some (tt, g, t)
     /\ published g =
        Some (mkHashStat (Z.of_nat (length ds))
                (float_reference_mean (map milliseconds ds))))
  /\ (forall ls : list Q, (Q_reference_mean ls == Q_incremental_mean ls)%Q).
Proof.
  intros Hn. split.
  - pose proof (record_all_from ds initial 0%nat (mkHashStat 0 0%float)
                  eq_refl eq_refl) as H.
    cbn [Total Average] in H. rewrite Z.add_0_l in H.
    destruct H as (g & t & Hrec & Hpub); [lia|exact Hn|].
    exists g, t. split; [exact Hrec|exact Hpub].
  - intros ls. apply Q_means_agree_from; [lia|reflexivity].
Qed.

Lemma average_follows_reference_formula_witness :
  (exists g t,
     record_all three_durations initial = Some (tt, g, t)
     /\ published g =
        Some (mkHashStat (Z.of_nat (length three_durations))
                (float_reference_mean (map milliseconds three_durations))))
  /\ (forall ls : list Q, (Q_reference_mean ls == Q_incremental_mean ls)%Q).
Proof.
  apply (average_follows_reference_formula three_durations).
  vm_compute. discriminate.
Defined.

(** C3 as stated fails in [float64]: for durations of 20, 30 and 40
    microseconds the published average is the float nearest to 0.03,
    0x1.eb851eb851eb8p-6, while the incremental mean is the next float
    above it. *)
Lemma average_is_not_incremental_mean :
  ~ (forall ds, exists g t hs,
       record_all ds initial = Some (tt, g, t)
       /\ published g = Some hs
       /\ Average hs = float_incremental_mean (map milliseconds ds)).
Proof.
  intros H. destruct (H three_durations) as (g & t & hs & Hrec & Hpub & Havg).
  vm_compute in Hrec. injection Hrec as <- <-.
  vm_compute in Hpub. injection Hpub as <-.
  apply (f_equal (fun x =>
    PrimFloat.eqb x (float_reference_mean (map milliseconds three_durations)))) in Havg.
  vm_compute in Havg. discriminate.
Qed.

(** ** Retrieval *)

(** What a retrieval answers while the server is not stopping: 400 when
    the path has no third field or the field is no [int]; otherwise the
    entry of [hashes] under the field converted to [int32] decides between
    404 and 200 with the entry as the body. *)
Lemma retrieval_response r elapsed g :
  stopping g <> 1 -> Method r = MethodGet ->
  exists t,
    HashHandler_ServeHTTP r elapsed g = Some (tt, g, t)
    /\ let urlParts := strings_Split (Path r) "/" in
       let w := response_of t in
       if (3 <=? length urlParts)%nat && negb (String.eqb (nth 2 urlParts "") "") then
         match strconv_Atoi (nth 2 urlParts "") with
         | None => Code w = StatusBadRequest
         | Some jid =>
             match hashes g !! int32 jid with
             | Some d =>
                 if String.eqb d "" then Code w = StatusNotFound
                 else Code w = StatusOK /\ Body w = [BText d]
             | None => Code w = StatusNotFound
             end
         end
       else Code w = StatusBadRequest.
Proof.
  intros Hs Hm.
  pose proof (HashHandler_body_get r elapsed g Hs Hm) as Hb. cbn zeta in Hb |- *.
  assert (Hserve : forall t,
    HashHandler_body r elapsed g = Some (None, g, t) ->
    HashHandler_ServeHTTP r elapsed g = Some (tt, g, t)).
  { intros t Ht. unfold HashHandler_ServeHTTP. unfold_monad. rewrite Ht. cbn.
    rewrite app_nil_r. reflexivity. }
  destruct ((3 <=? length (strings_Split (Path r) "/"))%nat
            && negb (String.eqb (nth 2 (strings_Split (Path r) "/") "") "")).
  2:{ eexists. split; [apply Hserve, Hb|reflexivity]. }
  destruct (strconv_Atoi (nth 2 (strings_Split (Path r) "/") "")) as [jid|].
  2:{ eexists. split; [apply Hserve, Hb|reflexivity]. }
  destruct (hashes g !! int32 jid) as [d|]; cbn in Hb.
  2:{ eexists. split; [apply Hserve, Hb|reflexivity]. }
  destruct (String.eqb d "").
  - eexists. split; [apply Hserve, Hb|reflexivity].
  - eexists. split; [apply Hserve, Hb|]. split; reflexivity.
Qed.

(** C7 on the code: the id 4294967297 was never handed out, it parses as
    an [int], and the retrieval answers 200 with the digest of job 1,
    because line 66 converts the parsed [int] to [int32] without a range
    check and 4294967297 becomes 1. *)
Theorem retrieval_truncates_id :
  strconv_Atoi "4294967297" = Some 4294967297
  /\ int32 4294967297 = 1
  /\ run start retrieve_unsubmitted = Some (retrieve_server, retrieve_outcomes)
  /\ job_ids retrieve_outcomes = [1]
  /\ answer <$> retrieve_outcomes !! 2%nat =
     Some (StatusOK,
           [BText "ZEHhWB65gUlzdVwtDQArEyx+KVLzp/aTaRaPlBzYRIFj6vjFdqEb0Q5B8zVKCZ0vKbZPZklJz0Fd7su2A+gf7Q=="]).
Proof. repeat split; vm_compute; reflexivity. Qed.

(** A retrieval of an id inside [int32] that was never handed out is
    answered with 404, and one of a field that is no number with 400. *)
Example retrieval_of_999999 :
  match run start [HashRequest (post "angryMonkey") 25000; Wake 0;
                   HashRequest (get "/hash/999999") 0;
                   HashRequest (get "/hash/abc") 0;
                   HashRequest (get "/hash/") 0;
                   HashRequest (get "/hash/1") 0] with
  | Some (_, os) => (fun o => Code (response_of (effects o))) <$> drop 2 os
  | None => []
  end = [StatusNotFound; StatusBadRequest; StatusBadRequest; StatusOK].
Proof. vm_compute. reflexivity. Qed.

(** ** The deferred call *)

(** [HashHandler.ServeHTTP] on an accepted submission: the function
    returns after the sleep of [hashAndEncode] and after the digest is
    stored. *)
Lemma serve_accepted r elapsed g p old :
  accepted g r = true -> hashStats g = Some p -> mem g !! p = Some old ->
  exists g' t1,
    HashHandler_body r elapsed g
      = Some (Some (int32 (jobCounter g + 1), PostFormValue r passwordFormName), g', t1)
    /\ HashHandler_ServeHTTP r elapsed g =
       Some (tt,
             mkGlobals (<[int32 (jobCounter g + 1) := digest_of (PostFormValue r passwordFormName)]>
                          (hashes g'))
               (jobCounter g') (hashStats g') (stopping g') (mem g'),
             t1 ++ [ESleep 5;
                    ELog "Hashing and encoding: '%s'" [AStr (PostFormValue r passwordFormName)];
                    ELock; EUnlock]).
Proof.
  intros Ha Hp Hold. eexists _, _.
  split; [apply (HashHandler_body_accepted r elapsed g p old Ha Hp Hold)|].
  unfold HashHandler_ServeHTTP. unfold_monad.
  rewrite (HashHandler_body_accepted r elapsed g p old Ha Hp Hold).
  cbn [run_deferred]. rewrite hashAndEncode_eq. reflexivity.
Qed.

(** The sequential function is the event of the request followed by the
    wake-up of its handler. *)
Lemma serve_is_request_then_wake s r elapsed s1 o1 :
  consistent (globals s) ->
  step s (HashRequest r elapsed) = Some (s1, o1) -> is_Some (deferred o1) ->
  exists s2 o2,
    step s1 (Wake (length (sleeping s))) = Some (s2, o2)
    /\ sleeping s2 = sleeping s
    /\ HashHandler_ServeHTTP r elapsed (globals s)
       = Some (tt, globals s2, effects o1 ++ effects o2).
Proof.
  intros Hc Hstep Hd. pose proof Hc as (p & old & Hp & Hold & Htot & Hr).
  apply (step_deferred _ _ _ _ _ Hc Hstep) in Hd as Ha.
  destruct (serve_accepted r elapsed _ p old Ha Hp Hold) as (g' & t1 & Hb & Hserve).
  cbn in Hstep. rewrite (until_sleep_accepted r elapsed _ p old Ha Hp Hold) in Hstep.
  rewrite (HashHandler_body_accepted r elapsed _ p old Ha Hp Hold) in Hb.
  injection Hb as <- <-. injection Hstep as <- <-.
  cbn [step sleeping globals option_list].
  rewrite lookup_app_r, Nat.sub_diag by lia. cbn [lookup list_lookup].
  rewrite hashAndEncode_awake_eq. eexists _, _. split; [reflexivity|].
  cbn [sleeping globals effects]. split.
  - rewrite delete_middle. apply app_nil_r.
  - rewrite Hserve. cbn. reflexivity.
Qed.

(** The first submission: [ServeHTTP] writes the id, records the
    statistics, then sleeps five seconds, hashes and stores the digest, and
    only then returns. *)
Lemma first_submission_served :
  HashHandler_ServeHTTP (post "angryMonkey") 25000 initial =
  Some (tt, first_served,
        [ELog "Begining hash request." []; ELog "Processing hash POST." [];
         EWriteHeader StatusOK; EWrite (BText "1");
         ELog "Hash request duration (nanoseconds): %s" [AStr "25000"];
         ELog "Adding duration (ms) %s to stats. New average: %s"
           [AFloat (milliseconds 25000); AFloat (milliseconds 25000)];
         ELog "Finished hash request." [];
         ESleep 5;
         ELog "Hashing and encoding: '%s'" [AStr "angryMonkey"];
         ELock; EUnlock])
  /\ hashes first_served !! 1 =
     Some "ZEHhWB65gUlzdVwtDQArEyx+KVLzp/aTaRaPlBzYRIFj6vjFdqEb0Q5B8zVKCZ0vKbZPZklJz0Fd7su2A+gf7Q=="
  /\ published first_served = Some (mkHashStat 1 (milliseconds 25000)).
Proof. repeat split; vm_compute; reflexivity. Qed.

(** C8 as stated fails: [defer hashAndEncode(jid, p)] runs the call on the
    goroutine of the handler, so the execution of [ServeHTTP] contains the
    sleep and ends with the digest stored. *)
Lemma completion_work_on_handler_path :
  ~ (forall g r elapsed g' t,
       accepted g r = true ->
       HashHandler_ServeHTTP r elapsed g = Some (tt, g', t) ->
       ~ In (ESleep 5) t /\ hashes g' = hashes g).
Proof.
  intros H.
  destruct (H initial (post "angryMonkey") 25000 _ _ eq_refl
              (proj1 first_submission_served)) as [Hsleep _].
  apply Hsleep. cbn. tauto.
Qed.

(** C8, as amended: for an accepted submission the handler body writes
    the 200 response with the job id and records the statistics itself,
    without any delay and before any digest is stored; the call it
    registers, [hashAndEncode] of the allocated id and the submitted
    value, is the delay of five seconds, the digest computation and the
    store under that id, and leaves the statistics alone. *)
Theorem stats_recorded_before_completion_work
    (g : Globals) (r : Request) (elapsed : Z) (p : nat) (old : HashStat) :
  accepted g r = true -> hashStats g = Some p -> mem g !! p = Some old ->
  let jid := int32 (jobCounter g + 1) in
  let value := PostFormValue r passwordFormName in
  exists g1 t1 g2 new,
    HashHandler_body r elapsed g = Some (Some (jid, value), g1, t1)
    /\ Code (response_of t1) = StatusOK
    /\ Body (response_of t1) = [BText (strconv_Itoa jid)]
    /\ published g1 = Some new
    /\ Total new = int32 (Total old + 1)
    /\ hashes g1 = hashes g
    /\ ~ In (ESleep 5) t1
    /\ hashAndEncode jid value g1 =
       Some (tt, g2,
             [ESleep 5; ELog "Hashing and encoding: '%s'" [AStr value]; ELock; EUnlock])
    /\ hashes g2 = <[jid := digest_of value]> (hashes g1)
    /\ published g2 = published g1.
Proof.
  intros Ha Hp Hold jid value.
  eexists _, _, _, _.
  split; [apply (HashHandler_body_accepted r elapsed g p old Ha Hp Hold)|].
  split; [reflexivity|]. split; [reflexivity|].
  split.
  { unfold published. cbn. rewrite lookup_app_r by (rewrite length_insert; lia).
    rewrite length_insert, Nat.sub_diag. reflexivity. }
  split; [reflexivity|]. split; [reflexivity|].
  split.
  { cbn. intros H. repeat (destruct H as [H|H]; [discriminate H|]). exact H. }
  split; [apply hashAndEncode_eq|]. split; reflexivity.
Qed.

Lemma stats_recorded_before_completion_work_witness :
  exists g1 t1 g2 new,
    HashHandler_body (post "angryMonkey") 25000 initial
      = Some (Some (int32 (jobCounter initial + 1), "angryMonkey"), g1, t1)
    /\ Code (response_of t1) = StatusOK
    /\ Body (response_of t1) = [BText (strconv_Itoa (int32 (jobCounter initial + 1)))]
    /\ published g1 = Some new
    /\ Total new = int32 (0 + 1)
    /\ hashes g1 = hashes initial
    /\ ~ In (ESleep 5) t1
    /\ hashAndEncode (int32 (jobCounter initial + 1)) "angryMonkey" g1 =
       Some (tt, g2,
             [ESleep 5; ELog "Hashing and encoding: '%s'" [AStr "angryMonkey"];
              ELock; EUnlock])
    /\ hashes g2 = <[int32 (jobCounter initial + 1) := digest_of "angryMonkey"]> (hashes g1)
    /\ published g2 = published g1.
Proof.
  apply (stats_recorded_before_completion_work initial (post "angryMonkey") 25000
           0%nat (mkHashStat 0 0%float)); reflexivity.
Defined.

(** ** Concurrent calls of [updateStats] *)

(** The three steps of one goroutine, taken without interruption, are
    [updateStats]. *)
Lemma updateStats_three_steps d g :
  updateStats d g =
  match interleave [0; 0; 0]%nat [AtLoad d] g with
  | Some (_, g', t) => Some (tt, g', t)
  | None => None
  end.
Proof.
  rewrite updateStats_eq. cbn [interleave lookup list_lookup].
  unfold updateStats_step. run_monad.
  destruct (hashStats g) as [p|]; [|reflexivity]. cbn.
  destruct (mem g !! p) as [old|] eqn:Hold; [|reflexivity]. cbn.
  rewrite list_lookup_insert_eq by (eapply lookup_lt_Some; eauto).
  cbn. rewrite length_insert. reflexivity.
Qed.

(** C9 on the code: two calls of [updateStats] that both load the
    published pointer before either stores.  Both calls return, and the
    published snapshot has total 1 and the average of the first latency
    alone: the second call is lost.  Run one after the other, the same
    calls publish total 2. *)
Theorem concurrent_record_loses_update :
  published_after racing_schedule two_calls =
    Some ([Returned; Returned], Some (mkHashStat 1 (milliseconds 20000)))
  /\ published_after serial_schedule two_calls =
    Some ([Returned; Returned],
          Some (mkHashStat 2 (float_reference_mean [milliseconds 20000; milliseconds 30000]))).
Proof. split; vm_compute; reflexivity. Qed.

(** Between the increment of line 215 and the store of line 220 a reader
    of [hashStats] sees the new total next to the old average. *)
Example total_ahead_of_average :
  published_after [0; 0]%nat [AtLoad 20000] =
  Some ([AtStore 20000 0 1], Some (mkHashStat 1 0%float)).
Proof. vm_compute. reflexivity. Qed.

(** * Further properties *)

(** ** Decimal identifiers *)

Lemma digit_char_spec d :
  0 <= d <= 9 ->
  is_digit (digit_char d) = true /\ digit_val (digit_char d) = d
  /\ digit_char d <> "/"%char /\ digit_char d <> "-"%char /\ digit_char d <> "+"%char.
Proof.
  intros H.
  assert (E : d = 0 \/ d = 1 \/ d = 2 \/ d = 3 \/ d = 4 \/ d = 5 \/ d = 6 \/ d = 7
              \/ d = 8 \/ d = 9) by lia.
  repeat (destruct E as [->|E]; [repeat split; discriminate|]).
  subst d. repeat split; discriminate.
Qed.

(** Parsing the digits that [digits_of] puts in front of [acc] shifts the
    accumulator by as many decimal places and adds the number. *)
Lemma parse_digits_of fuel : forall n acc,
  0 <= n < 10 ^ Z.of_nat fuel ->
  exists m, 0 <= m /\ forall a,
    parse_digits (digits_of fuel n acc) a = parse_digits acc (a * 10 ^ m + n).
Proof.
  induction fuel as [|fuel IH]; intros n acc Hn.
  - exists 0. split; [lia|]. intros a. cbn in *. f_equal. lia.
  - cbn [digits_of].
    destruct (digit_char_spec (n mod 10)) as (Hd & Hv & _);
      [pose proof (Z.mod_pos_bound n 10); lia|].
    destruct (Z.ltb_spec n 10) as [Hlt|Hge].
    + exists 1. split; [lia|]. intros a. cbn [parse_digits]. rewrite Hd, Hv.
      rewrite Z.mod_small by lia. f_equal. lia.
    + destruct (IH (n / 10) (String (digit_char (n mod 10)) acc)) as (m & Hm & E).
      { rewrite Nat2Z.inj_succ, Z.pow_succ_r in Hn by lia.
        split; [apply Z.div_pos; lia|apply Z.div_lt_upper_bound; lia]. }
      exists (m + 1). split; [lia|]. intros a. rewrite E. cbn [parse_digits].
      rewrite Hd, Hv. f_equal. rewrite Z.pow_add_r, Z.pow_1_r by lia.
      pose proof (Z.div_mod n 10). lia.
Qed.

(** [digits_of] with some fuel starts with a digit. *)
Lemma digits_of_head fuel n acc :
  0 <= n ->
  exists d rest, 0 <= d <= 9 /\ digits_of (S fuel) n acc = String (digit_char d) rest.
Proof.
  revert n acc. induction fuel as [|fuel IH]; intros n acc Hn.
  - cbn. exists (n mod 10). pose proof (Z.mod_pos_bound n 10).
    destruct (n <? 10); eexists; (split; [lia|reflexivity]).
  - cbn [digits_of]. destruct (n <? 10).
    + exists (n mod 10). pose proof (Z.mod_pos_bound n 10).
      eexists. split; [lia|reflexivity].
    + apply (IH (n / 10)). apply Z.div_pos; lia.
Qed.

Lemma Itoa_fuel n :
  0 <= n -> n < 10 ^ Z.of_nat (Z.to_nat (Z.log2 n) + 1).
Proof.
  intros Hn. rewrite Nat2Z.inj_add, Z2Nat.id by apply Z.log2_nonneg.
  change (Z.of_nat 1) with 1.
  destruct (Z.eq_dec n 0) as [->|Hne]; [reflexivity|].
  pose proof (Z.log2_spec n ltac:(lia)) as [_ Hlt].
  change (Z.succ (Z.log2 n)) with (Z.log2 n + 1) in Hlt.
  eapply Z.lt_le_trans; [exact Hlt|].
  apply Z.pow_le_mono_l. pose proof (Z.log2_nonneg n). lia.
Qed.

Lemma Atoi_of_Itoa n :
  MinInt64 <= n <= MaxInt64 -> strconv_Atoi (strconv_Itoa n) = Some n.
Proof.
  intros Hr. unfold strconv_Itoa.
  destruct (Z.ltb_spec n 0) as [Hneg|Hpos].
  - unfold strconv_Atoi.
    replace (Z.to_nat (Z.log2 (- n)) + 1)%nat with (S (Z.to_nat (Z.log2 (- n)))) by lia.
    destruct (digits_of_head (Z.to_nat (Z.log2 (- n))) (- n) "" ltac:(lia))
      as (d & rest & Hd & E).
    destruct (parse_digits_of (S (Z.to_nat (Z.log2 (- n)))) (- n) "") as (m & _ & P).
    { split; [lia|]. replace (S (Z.to_nat (Z.log2 (- n)))) with (Z.to_nat (Z.log2 (- n)) + 1)%nat by lia.
      apply Itoa_fuel. lia. }
    specialize (P 0). rewrite E in P |- *. rewrite P. cbn [parse_digits].
    replace (0 * 10 ^ m + - n) with (- n) by lia. rewrite Z.opp_involutive.
    destruct (Z.leb_spec MinInt64 n); [|lia]. destruct (Z.leb_spec n MaxInt64); [|lia].
    reflexivity.
  - unfold strconv_Atoi.
    replace (Z.to_nat (Z.log2 n) + 1)%nat with (S (Z.to_nat (Z.log2 n))) by lia.
    destruct (digits_of_head (Z.to_nat (Z.log2 n)) n "" Hpos) as (d & rest & Hd & E).
    destruct (parse_digits_of (S (Z.to_nat (Z.log2 n))) n "") as (m & _ & P).
    { split; [lia|]. replace (S (Z.to_nat (Z.log2 n))) with (Z.to_nat (Z.log2 n) + 1)%nat by lia.
      apply Itoa_fuel. lia. }
    specialize (P 0). rewrite E in P |- *.
    destruct (digit_char_spec d Hd) as (_ & _ & _ & Hm & Hp).
    assert (Hsel : forall (c : ascii) (r : string),
      c <> "-"%char -> c <> "+"%char ->
      match String c r with
      | String "-" rest0 => (true, rest0)
      | String "+" rest0 => (false, rest0)
      | _ => (false, String c r)
      end = (false, String c r)).
    { intros c r H1 H2.
      destruct c as [[] [] [] [] [] [] [] []]; try reflexivity; congruence. }
    rewrite (Hsel _ _ Hm Hp). rewrite P. cbn [parse_digits].
    replace (0 * 10 ^ m + n) with n by lia.
    destruct (Z.leb_spec MinInt64 n); [|lia]. destruct (Z.leb_spec n MaxInt64); [|lia].
    reflexivity.
Qed.

Lemma string_app_empty_r (s : string) : (s ++ "")%string = s.
Proof.
  induction s as [|c s IH]; [reflexivity|].
  change (String c (s ++ "") = String c s). f_equal. exact IH.
Qed.

Lemma string_app_cons_r (s : string) (c : ascii) (r : string) :
  ((s ++ String c "") ++ r)%string = (s ++ String c r)%string.
Proof.
  induction s as [|x s IH]; [reflexivity|].
  change (String x ((s ++ String c "") ++ r) = String x (s ++ String c r)).
  f_equal. exact IH.
Qed.

(** A string without the separator is one field. *)
Lemma split_go_no_sep sep s : forall cur,
  ~ In sep (list_ascii_of_string s) -> split_go sep s cur = [(cur ++ s)%string].
Proof.
  induction s as [|c s IH]; intros cur Hno; cbn [split_go].
  - rewrite string_app_empty_r. reflexivity.
  - cbn in Hno. destruct (Ascii.eqb_spec c sep) as [->|Hne]; [tauto|].
    rewrite IH by tauto. rewrite string_app_cons_r. reflexivity.
Qed.

Lemma digits_of_no_slash fuel : forall n acc,
  0 <= n -> ~ In "/"%char (list_ascii_of_string acc) ->
  ~ In "/"%char (list_ascii_of_string (digits_of fuel n acc)).
Proof.
  induction fuel as [|fuel IH]; intros n acc Hn Hacc; cbn [digits_of]; [exact Hacc|].
  assert (H' : ~ In "/"%char (list_ascii_of_string (String (digit_char (n mod 10)) acc))).
  { cbn. intros [H|H]; [|tauto].
    destruct (digit_char_spec (n mod 10)) as (_ & _ & Hs & _);
      [pose proof (Z.mod_pos_bound n 10); lia|]. congruence. }
  destruct (n <? 10); [exact H'|]. apply IH; [apply Z.div_pos; lia|exact H'].
Qed.

Lemma Itoa_no_slash n : ~ In "/"%char (list_ascii_of_string (strconv_Itoa n)).
Proof.
  unfold strconv_Itoa. destruct (Z.ltb_spec n 0) as [Hn|Hn].
  - cbn [list_ascii_of_string In]. intros [H|H]; [discriminate|].
    revert H. apply digits_of_no_slash; [lia|]. cbn. tauto.
  - apply digits_of_no_slash; [lia|]. cbn. tauto.
Qed.

Lemma Itoa_nonempty n : strconv_Itoa n <> "".
Proof.
  unfold strconv_Itoa. destruct (Z.ltb_spec n 0); [discriminate|].
  replace (Z.to_nat (Z.log2 n) + 1)%nat with (S (Z.to_nat (Z.log2 n))) by lia.
  destruct (digits_of_head (Z.to_nat (Z.log2 n)) n "" ltac:(lia)) as (d & rest & _ & E).
  rewrite E. discriminate.
Qed.

Lemma split_go_field sep s : forall cur rest,
  ~ In sep (list_ascii_of_string s) ->
  split_go sep (s ++ String sep rest) cur = (cur ++ s)%string :: split_go sep rest "".
Proof.
  induction s as [|c s IH]; intros cur rest Hno.
  - change (split_go sep (String sep rest) cur = (cur ++ "")%string :: split_go sep rest "").
    cbn [split_go]. rewrite Ascii.eqb_refl, string_app_empty_r. reflexivity.
  - change (split_go sep (String c (s ++ String sep rest)) cur
            = (cur ++ String c s)%string :: split_go sep rest "").
    cbn [split_go]. cbn in Hno.
    destruct (Ascii.eqb_spec c sep) as [->|Hne]; [tauto|].
    rewrite IH by tauto. rewrite string_app_cons_r. reflexivity.
Qed.

(** The path under which a client asks for job [n]. *)
Lemma Split_hash_path n :
  strings_Split ("/hash/" ++ strconv_Itoa n)%string "/" = [""; "hash"; strconv_Itoa n].
Proof.
  unfold strings_Split.
  change ("/hash/" ++ strconv_Itoa n)%string
    with ("" ++ String "/" ("hash" ++ String "/" (strconv_Itoa n)))%string.
  rewrite split_go_field by (cbn; tauto).
  rewrite split_go_field by (cbn; intuition discriminate).
  rewrite (split_go_no_sep "/" (strconv_Itoa n) "") by apply Itoa_no_slash.
  reflexivity.
Qed.

(** A retrieval by the decimal form of an [int32] id looks at the entry
    of that id. *)
Lemma retrieval_by_id (g : Globals) (jid : Z) (elapsed : Z) :
  stopping g <> 1 -> MinInt32 <= jid <= MaxInt32 ->
  exists t,
    HashHandler_ServeHTTP (get ("/hash/" ++ strconv_Itoa jid)) elapsed g = Some (tt, g, t)
    /\ match hashes g !! jid with
       | Some d =>
           if String.eqb d "" then Code (response_of t) = StatusNotFound
           else Code (response_of t) = StatusOK /\ Body (response_of t) = [BText d]
       | None => Code (response_of t) = StatusNotFound
       end.
Proof.
  intros Hs Hr.
  destruct (retrieval_response (get ("/hash/" ++ strconv_Itoa jid)) elapsed g Hs eq_refl)
    as (t & Hserve & Hresp).
  exists t. split; [exact Hserve|].
  cbn zeta in Hresp. change (Path (get ?p)) with p in Hresp.
  rewrite Split_hash_path in Hresp. cbn [length nth Nat.leb andb] in Hresp.
  pose proof (Itoa_nonempty jid) as Hi. apply String.eqb_neq in Hi.
  rewrite Hi in Hresp. cbn [negb] in Hresp.
  rewrite Atoi_of_Itoa in Hresp by (unfold MinInt32, MaxInt32, MinInt64, MaxInt64 in *; lia).
  rewrite (int32_small _ Hr) in Hresp. exact Hresp.
Qed.

(** ** The store of digests *)

Lemma jobs_cons o os : jobs (o :: os) = option_list (deferred o) ++ jobs os.
Proof. unfold jobs. cbn. destruct (deferred o); reflexivity. Qed.

Lemma job_ids_jobs os : job_ids os = (jobs os).*1.
Proof.
  induction os as [|o os IH]; [reflexivity|].
  rewrite job_ids_cons, jobs_cons, IH. destruct (deferred o) as [[jid v]|]; reflexivity.
Qed.

(** What each kind of event does to the server. *)
Lemma step_cases s e s' o :
  consistent (globals s) -> step s e = Some (s', o) ->
  (exists r elapsed jid g,
     e = HashRequest r elapsed /\ accepted (globals s) r = true
     /\ jid = int32 (jobCounter (globals s) + 1)
     /\ deferred o = Some (jid, PostFormValue r passwordFormName)
     /\ s' = mkServer g (sleeping s ++ [(jid, PostFormValue r passwordFormName)])
                (awaiting_signal s)
     /\ hashes g = hashes (globals s) /\ jobCounter g = jid
     /\ stopping g = stopping (globals s))
  \/ (exists i jid data,
        e = Wake i /\ sleeping s !! i = Some (jid, data) /\ deferred o = None
        /\ s' = mkServer
                  (mkGlobals (<[jid := digest_of data]> (hashes (globals s)))
                     (jobCounter (globals s)) (hashStats (globals s))
                     (stopping (globals s)) (mem (globals s)))
                  (delete i (sleeping s)) (awaiting_signal s))
  \/ (deferred o = None /\ sleeping s' = sleeping s
      /\ hashes (globals s') = hashes (globals s)
      /\ jobCounter (globals s') = jobCounter (globals s)
      /\ hashStats (globals s') = hashStats (globals s)
      /\ mem (globals s') = mem (globals s)).
Proof.
  intros (p & old & Hp & Hold & Htot & Hr) Hstep.
  destruct e as [r elapsed | i | r | ]; cbn in Hstep.
  - destruct (accepted (globals s) r) eqn:Ha.
    + rewrite (until_sleep_accepted r elapsed _ p old Ha Hp Hold) in Hstep.
      injection Hstep as <- <-. left. eexists r, elapsed, _, _.
      split; [reflexivity|]. split; [exact Ha|]. split; [reflexivity|].
      split; [reflexivity|]. split; [reflexivity|]. repeat split.
    + destruct (until_sleep_not_accepted r elapsed _ Ha) as (t & _ & Ht).
      rewrite Ht in Hstep. injection Hstep as <- <-. right. right.
      cbn. rewrite app_nil_r. repeat split.
  - destruct (sleeping s !! i) as [[jid data]|] eqn:Hi; [|discriminate].
    rewrite hashAndEncode_awake_eq in Hstep. injection Hstep as <- <-.
    right. left. exists i, jid, data.
    split; [reflexivity|]. split; [exact Hi|]. split; reflexivity.
  - destruct (StatsHandler_reads r _ p old Hp Hold) as [t Ht].
    rewrite Ht in Hstep. injection Hstep as <- <-. right. right. repeat split.
  - destruct (awaiting_signal s).
    + cbn in Hstep. injection Hstep as <- <-. right. right. repeat split.
    + injection Hstep as <- <-. right. right. repeat split.
Qed.

Lemma step_stored_from js s e s' o :
  consistent (globals s) -> step s e = Some (s', o) ->
  stored_from js s -> stored_from (js ++ option_list (deferred o)) s'.
Proof.
  intros Hc Hstep [Hh Hsl].
  destruct (step_cases _ _ _ _ Hc Hstep)
    as [(r & el & jid & g & -> & Ha & Hj & Hd & -> & Hhash & Hcnt & _)
       |[(i & jid & data & -> & Hi & Hd & ->)
        |(Hd & Hs & Hhash & _)]]; rewrite Hd; cbn [option_list].
  - split; cbn [globals sleeping].
    + intros k d Hk. rewrite Hhash in Hk. destruct (Hh k d Hk) as (v & Hv & ->).
      exists v. split; [|reflexivity]. apply elem_of_app. left. exact Hv.
    + intros kv Hkv. apply elem_of_app in Hkv as [Hkv|Hkv]; apply elem_of_app.
      * left. apply Hsl, Hkv.
      * right. exact Hkv.
  - rewrite app_nil_r. split; cbn [globals sleeping hashes].
    + intros k d Hk. destruct (decide (jid = k)) as [<-|Hne].
      * rewrite lookup_insert_eq in Hk. injection Hk as <-.
        exists data. split; [|reflexivity]. apply Hsl.
        eapply list_elem_of_lookup_2, Hi.
      * rewrite lookup_insert_ne in Hk by exact Hne. apply Hh, Hk.
    + intros kv Hkv. apply Hsl. eapply elem_of_sublist; [exact Hkv|apply sublist_delete].
  - rewrite app_nil_r. split.
    + intros k d Hk. rewrite Hhash in Hk. apply Hh, Hk.
    + intros kv Hkv. rewrite Hs in Hkv. apply Hsl, Hkv.
Qed.

Lemma run_stored_from es : forall js s s' os,
  consistent (globals s) -> run s es = Some (s', os) ->
  stored_from js s -> stored_from (js ++ jobs os) s'.
Proof.
  induction es as [|e es IH]; intros js s s' os Hc Hrun HJ; cbn [run] in Hrun.
  - injection Hrun as <- <-. unfold jobs. cbn. rewrite app_nil_r. exact HJ.
  - destruct (step s e) as [[s1 o]|] eqn:Hstep; [|discriminate].
    destruct (run s1 es) as [[s2 os2]|] eqn:Hrest; [|discriminate].
    injection Hrun as <- <-. rewrite jobs_cons, app_assoc.
    eapply IH; [eapply step_consistent; eauto|exact Hrest|].
    eapply step_stored_from; eauto.
Qed.

(** X5: each digest in the store is the digest of the value that was
    submitted under its id, and each id in the store was handed out. *)
Theorem stored_digests_are_correct es s os k d :
  run start es = Some (s, os) -> hashes (globals s) !! k = Some d ->
  exists v, (k, v) ∈ jobs os /\ k ∈ job_ids os
            /\ d = base64.EncodeToString (sha512.Sum (bytes_of_string v)).
Proof.
  intros Hrun Hk.
  destruct (run_stored_from es [] start s os consistent_initial Hrun) as [Hh _].
  { split; [intros k' d' H'; discriminate H'|intros kv H'; inversion H']. }
  destruct (Hh k d Hk) as (v & Hv & ->). exists v. split; [exact Hv|].
  split; [|reflexivity]. rewrite job_ids_jobs.
  apply list_elem_of_fmap. exists (k, v). split; [reflexivity|exact Hv].
Qed.

Lemma ids_fresh_start : ids_fresh start.
Proof.
  split; [split; discriminate|]. split.
  { intros k [d Hd]. discriminate Hd. }
  split; [intros k v H; inversion H|constructor].
Qed.

(** An event keeps the ids fresh and keeps every digest that is stored,
    unless it hands out an id beyond [MaxInt32]. *)
Lemma step_ids_fresh s e s' o :
  consistent (globals s) -> step s e = Some (s', o) -> ids_fresh s ->
  (is_Some (deferred o) -> jobCounter (globals s) < MaxInt32) ->
  ids_fresh s'
  /\ (forall k d, hashes (globals s) !! k = Some d -> hashes (globals s') !! k = Some d)
  /\ jobCounter (globals s')
     = jobCounter (globals s) + Z.of_nat (length (option_list (deferred o))).
Proof.
  intros Hc Hstep (Hcr & Hdom & Hsl & Hnd) Hb. unfold ids_fresh.
  destruct (step_cases _ _ _ _ Hc Hstep)
    as [(r & el & jid & g & -> & Ha & Hj & Hd & -> & Hhash & Hcnt & _)
       |[(i & jid & data & -> & Hi & Hd & ->)
        |(Hd & Hs & Hhash & Hcnt & _)]]; rewrite Hd in *; cbn [option_list length].
  - specialize (Hb ltac:(eauto)).
    assert (Ej : jid = jobCounter (globals s) + 1).
    { rewrite Hj. apply int32_small. unfold MinInt32, MaxInt32 in *. lia. }
    cbn [globals sleeping]. rewrite Hhash, Hcnt, Ej.
    split; [|split; [tauto|cbn; lia]].
    split; [unfold MaxInt32 in *; lia|]. split.
    { intros k Hk. specialize (Hdom k Hk). lia. }
    split.
    + intros k v Hkv. apply elem_of_app in Hkv as [Hkv|Hkv].
      * destruct (Hsl k v Hkv). split; [lia|assumption].
      * apply list_elem_of_singleton in Hkv. injection Hkv as -> ->.
        split; [lia|]. destruct (hashes (globals s) !! (jobCounter (globals s) + 1)) eqn:E;
          [|reflexivity].
        specialize (Hdom _ ltac:(eauto)). lia.
    + rewrite fmap_app. apply NoDup_app. split; [exact Hnd|]. split; [|apply NoDup_singleton].
      intros k Hk Hk'. cbn in Hk'. apply list_elem_of_singleton in Hk'. subst k.
      apply list_elem_of_fmap in Hk as ([k v] & E & Hkv). cbn in E. subst k.
      destruct (Hsl _ _ Hkv). lia.
  - cbn [globals sleeping hashes jobCounter].
    destruct (Hsl jid data (list_elem_of_lookup_2 _ _ _ Hi)) as [Hjr Hjn].
    pose proof (take_drop_middle _ _ _ Hi) as Hmid.
    assert (Hdel : delete i (sleeping s) = take i (sleeping s) ++ drop (S i) (sleeping s))
      by apply delete_take_drop.
    rewrite <- Hmid in Hnd. rewrite fmap_app, fmap_cons in Hnd.
    apply NoDup_app in Hnd as (Hn1 & Hn12 & Hn2).
    apply NoDup_cons in Hn2 as [Hn2a Hn2].
    assert (Hother : forall k v, (k, v) ∈ delete i (sleeping s) -> k <> jid).
    { intros k v Hkv. rewrite Hdel in Hkv. apply elem_of_app in Hkv as [Hkv|Hkv].
      - intros ->. apply (Hn12 jid); [apply list_elem_of_fmap; exists (jid, v); auto|].
        cbn. apply list_elem_of_here.
      - intros ->. apply Hn2a. apply list_elem_of_fmap. exists (jid, v). auto. }
    split; [|split].
    + split; [exact Hcr|]. split.
      { intros k Hk. destruct (decide (jid = k)) as [<-|Hne]; [exact Hjr|].
        rewrite lookup_insert_ne in Hk by exact Hne. apply Hdom, Hk. }
      split.
      * intros k v Hkv. pose proof (Hother k v Hkv).
        destruct (Hsl k v) as [? ?];
          [eapply elem_of_sublist; [exact Hkv|apply sublist_delete]|].
        split; [assumption|]. rewrite lookup_insert_ne by congruence. assumption.
      * rewrite Hdel, fmap_app. apply NoDup_app. split; [exact Hn1|]. split; [|exact Hn2].
        intros k Hk Hk'. apply (Hn12 k Hk). cbn. apply list_elem_of_further, Hk'.
    + intros k d Hk. destruct (decide (jid = k)) as [<-|Hne]; [congruence|].
      rewrite lookup_insert_ne by exact Hne. exact Hk.
    + cbn. lia.
  - rewrite Hs, Hhash, Hcnt. split; [|split; [tauto|cbn; lia]].
    split; [exact Hcr|]. split; [exact Hdom|]. split; [exact Hsl|exact Hnd].
Qed.

Lemma run_ids_fresh es : forall s s' os,
  consistent (globals s) -> run s es = Some (s', os) -> ids_fresh s ->
  jobCounter (globals s) + Z.of_nat (length (job_ids os)) <= MaxInt32 ->
  ids_fresh s'
  /\ (forall k d, hashes (globals s) !! k = Some d -> hashes (globals s') !! k = Some d)
  /\ jobCounter (globals s') = jobCounter (globals s) + Z.of_nat (length (job_ids os)).
Proof.
  induction es as [|e es IH]; intros s s' os Hc Hrun Hf Hb; cbn [run] in Hrun.
  - injection Hrun as <- <-. split; [exact Hf|]. split; [tauto|]. cbn. lia.
  - destruct (step s e) as [[s1 o]|] eqn:Hstep; [|discriminate].
    destruct (run s1 es) as [[s2 os2]|] eqn:Hrest; [|discriminate].
    injection Hrun as <- <-.
    rewrite job_ids_cons in Hb |- *.
    assert (Hlen : length (match deferred o with
                           | Some (jid, _) => jid :: job_ids os2
                           | None => job_ids os2 end)
                   = (length (option_list (deferred o)) + length (job_ids os2))%nat).
    { destruct (deferred o) as [[? ?]|]; reflexivity. }
    rewrite Hlen in Hb |- *. rewrite Nat2Z.inj_add in Hb |- *.
    destruct (step_ids_fresh _ _ _ _ Hc Hstep Hf) as (Hf1 & Hk1 & Hc1).
    { intros [[jid v] Hd]. rewrite Hd in Hb. cbn in Hb. lia. }
    destruct (IH s1 s2 os2 (step_consistent _ _ _ _ Hc Hstep) Hrest Hf1) as (Hf2 & Hk2 & Hc2);
      [lia|].
    split; [exact Hf2|]. split; [intros k d Hk; apply Hk2, Hk1, Hk|lia].
Qed.

(** X6: write-once.  While at most [MaxInt32] ids are handed out, a digest that
    is in the store stays there unchanged, whatever happens next. *)
Theorem stored_digest_is_kept es1 es2 s1 os1 s2 os2 k d :
  run start es1 = Some (s1, os1) -> run s1 es2 = Some (s2, os2) ->
  Z.of_nat (length (job_ids os1)) + Z.of_nat (length (job_ids os2)) <= MaxInt32 ->
  hashes (globals s1) !! k = Some d -> hashes (globals s2) !! k = Some d.
Proof.
  intros Hrun1 Hrun2 Hb Hk.
  destruct (run_ids_fresh es1 start s1 os1 consistent_initial Hrun1 ids_fresh_start)
    as (Hf1 & _ & Hc1).
  { change (jobCounter (globals start)) with 0. lia. }
  change (jobCounter (globals start)) with 0 in Hc1.
  destruct (run_ids_fresh es2 s1 s2 os2 (run_consistent es1 start s1 os1 consistent_initial Hrun1)
              Hrun2 Hf1) as (_ & Hkeep & _); [lia|].
  apply Hkeep, Hk.
Qed.

(** X7: in the executions of [run], where the handlers' calls of
    [updateStats] do not overlap, and while at most [MaxInt32] ids are
    handed out, the published total never decreases, and it grows by the
    number of submissions accepted in between. *)
Theorem total_never_decreases es1 es2 s1 os1 s2 os2 :
  run start es1 = Some (s1, os1) -> run s1 es2 = Some (s2, os2) ->
  Z.of_nat (length (job_ids os1)) + Z.of_nat (length (job_ids os2)) <= MaxInt32 ->
  exists hs1 hs2,
    published (globals s1) = Some hs1 /\ published (globals s2) = Some hs2
    /\ Total hs2 = Total hs1 + Z.of_nat (length (job_ids os2))
    /\ Total hs1 <= Total hs2.
Proof.
  intros Hrun1 Hrun2 Hb.
  pose proof (run_consistent es1 start s1 os1 consistent_initial Hrun1) as Hc1.
  pose proof (run_consistent _ _ _ _ Hc1 Hrun2) as Hc2.
  destruct (run_ids_fresh es1 start s1 os1 consistent_initial Hrun1 ids_fresh_start)
    as (Hf1 & _ & Hn1).
  { change (jobCounter (globals start)) with 0. lia. }
  change (jobCounter (globals start)) with 0 in Hn1.
  destruct (run_ids_fresh es2 s1 s2 os2 Hc1 Hrun2 Hf1) as (_ & _ & Hn2); [lia|].
  destruct Hc1 as (p1 & hs1 & Hp1 & Hh1 & Ht1 & _).
  destruct Hc2 as (p2 & hs2 & Hp2 & Hh2 & Ht2 & _).
  exists hs1, hs2. unfold published. rewrite Hp1, Hp2. cbn.
  split; [exact Hh1|]. split; [exact Hh2|]. lia.
Qed.

(** X8: no handler panics.  In every state of an execution, every request to
    either handler and every signal is served, and a sleeping handler can
    always finish. *)
Theorem reachable_never_panics es s os e :
  run start es = Some (s, os) ->
  (forall i, e = Wake i -> (i < length (sleeping s))%nat) ->
  exists s' o, step s e = Some (s', o).
Proof.
  intros Hrun Hw. apply step_total.
  - exact (run_consistent es start s os consistent_initial Hrun).
  - intros i Hi. apply lookup_lt_is_Some, Hw, Hi.
Qed.

(** ** Identifiers on the wire *)

(** X1: the decimal text that the POST branch writes for an id is read
    back by the GET branch as the same id: [strconv.Atoi] undoes
    [strconv.Itoa] on every [int], the text has no ['/'], and the path
    [/hash/<text>] splits into the three fields the handler expects. *)
Theorem Itoa_round_trip (n : Z) :
  MinInt64 <= n <= MaxInt64 ->
  strconv_Atoi (strconv_Itoa n) = Some n
  /\ strings_Split ("/hash/" ++ strconv_Itoa n)%string "/" = [""; "hash"; strconv_Itoa n]
  /\ strconv_Itoa n <> "".
Proof.
  intros Hr. split; [apply Atoi_of_Itoa, Hr|].
  split; [apply Split_hash_path|apply Itoa_nonempty].
Qed.

Lemma Itoa_round_trip_witness :
  strconv_Atoi (strconv_Itoa MinInt32) = Some MinInt32
  /\ strings_Split ("/hash/" ++ strconv_Itoa MinInt32)%string "/"
     = [""; "hash"; strconv_Itoa MinInt32]
  /\ strconv_Itoa MinInt32 <> "".
Proof. apply (Itoa_round_trip MinInt32). split; discriminate. Defined.

(** X2: what [TestHashHandlerGet] checks, for every entry: while the
    server is not stopping, a GET of [/hash/<id>] for an [int32] id under
    which a non-empty string is stored answers 200 with that string, and
    leaves the variables alone. *)
Theorem retrieve_stored (g : Globals) (jid : Z) (d : string) (elapsed : Z) :
  stopping g <> 1 -> MinInt32 <= jid <= MaxInt32 ->
  hashes g !! jid = Some d -> d <> "" ->
  exists t,
    HashHandler_ServeHTTP (get ("/hash/" ++ strconv_Itoa jid)) elapsed g = Some (tt, g, t)
    /\ Code (response_of t) = StatusOK
    /\ Body (response_of t) = [BText d].
Proof.
  intros Hs Hr Hd Hne. destruct (retrieval_by_id g jid elapsed Hs Hr) as (t & Hserve & Hresp).
  exists t. split; [exact Hserve|]. rewrite Hd in Hresp.
  apply String.eqb_neq in Hne. rewrite Hne in Hresp. exact Hresp.
Qed.

Lemma retrieve_stored_witness :
  exists t,
    HashHandler_ServeHTTP (get ("/hash/" ++ strconv_Itoa 1)) 0 first_served
      = Some (tt, first_served, t)
    /\ Code (response_of t) = StatusOK
    /\ Body (response_of t) =
       [BText "ZEHhWB65gUlzdVwtDQArEyx+KVLzp/aTaRaPlBzYRIFj6vjFdqEb0Q5B8zVKCZ0vKbZPZklJz0Fd7su2A+gf7Q=="].
Proof.
  apply (retrieve_stored first_served 1); try discriminate.
  - split; discriminate.
  - reflexivity.
Defined.

(** X3: pending or unknown ids are not found.  In every state of an
    execution that has handed out at most [MaxInt32] ids, while the server
    is not stopping, a GET of [/hash/<id>] answers 404 when the id is in
    the [int32] range and either was never handed out or belongs to a
    handler that still sleeps in [hashAndEncode]. *)
Theorem retrieve_pending_or_unknown es s os (jid elapsed : Z) :
  run start es = Some (s, os) ->
  Z.of_nat (length (job_ids os)) <= MaxInt32 ->
  stopping (globals s) <> 1 -> MinInt32 <= jid <= MaxInt32 ->
  jid ∉ job_ids os \/ jid ∈ (sleeping s).*1 ->
  exists t,
    HashHandler_ServeHTTP (get ("/hash/" ++ strconv_Itoa jid)) elapsed (globals s)
      = Some (tt, globals s, t)
    /\ Code (response_of t) = StatusNotFound.
Proof.
  intros Hrun Hb Hs Hr Hj.
  destruct (retrieval_by_id (globals s) jid elapsed Hs Hr) as (t & Hserve & Hresp).
  exists t. split; [exact Hserve|].
  destruct (hashes (globals s) !! jid) as [d|] eqn:Hd; [|exact Hresp].
  exfalso. destruct Hj as [Hj|Hj].
  - destruct (run_stored_from es [] start s os consistent_initial Hrun) as [Hh _].
    { split; [intros k' d' H'; discriminate H'|intros kv H'; inversion H']. }
    destruct (Hh jid d Hd) as (v & Hv & _). apply Hj. rewrite job_ids_jobs.
    apply list_elem_of_fmap. exists (jid, v). split; [reflexivity|exact Hv].
  - destruct (run_ids_fresh es start s os consistent_initial Hrun ids_fresh_start)
      as ((_ & _ & Hsl & _) & _ & _).
    { change (jobCounter (globals start)) with 0. lia. }
    apply list_elem_of_fmap in Hj as ([k v] & E & Hkv). cbn in E. subst k.
    destruct (Hsl jid v Hkv) as [_ Hnone]. congruence.
Qed.

Lemma retrieve_pending_or_unknown_witness :
  exists t,
    HashHandler_ServeHTTP (get ("/hash/" ++ strconv_Itoa 999999)) 0 (globals ten_server)
      = Some (tt, globals ten_server, t)
    /\ Code (response_of t) = StatusNotFound.
Proof.
  apply (retrieve_pending_or_unknown ten_sequential ten_server ten_outcomes 999999 0).
  - vm_compute. reflexivity.
  - vm_compute. discriminate.
  - discriminate.
  - split; discriminate.
  - left. vm_compute. intros H.
    repeat (apply elem_of_cons in H as [H|H]; [discriminate H|]).
    inversion H.
Defined.

Lemma step_wake_last g sl a jid data :
  step (mkServer g (sl ++ option_list (Some (jid, data))) a) (Wake (length sl)) =
  Some (mkServer
          (mkGlobals (<[jid := digest_of data]> (hashes g)) (jobCounter g)
             (hashStats g) (stopping g) (mem g))
          sl a,
        mkOutcome [ELog "Hashing and encoding: '%s'" [AStr data]; ELock; EUnlock] None).
Proof.
  change (option_list (Some (jid, data))) with [(jid, data)].
  cbn [step sleeping globals awaiting_signal].
  rewrite lookup_app_r, Nat.sub_diag by lia.
  change ([(jid, data)] !! 0%nat) with (Some (jid, data)). cbv beta iota.
  rewrite hashAndEncode_awake_eq, delete_middle, app_nil_r. reflexivity.
Qed.

(** X4: the id a client receives retrieves that client's digest.  In
    every state of an execution, while the server is not stopping, a
    submission of a non-empty value is answered with a decimal id; once its
    handler has woken up, a GET of [/hash/<that text>] answers 200 with the
    base64 SHA-512 digest of the submitted value. *)
Theorem submitted_id_retrieves_digest es s os (value : string) (elapsed elapsed' : Z) :
  run start es = Some (s, os) -> stopping (globals s) <> 1 -> value <> "" ->
  exists s1 o1 s2 o2 b t,
    step s (HashRequest (post value) elapsed) = Some (s1, o1)
    /\ Code (response_of (effects o1)) = StatusOK
    /\ Body (response_of (effects o1)) = [BText b]
    /\ step s1 (Wake (length (sleeping s))) = Some (s2, o2)
    /\ HashHandler_ServeHTTP (get ("/hash/" ++ b)) elapsed' (globals s2)
       = Some (tt, globals s2, t)
    /\ Code (response_of t) = StatusOK
    /\ Body (response_of t)
       = [BText (base64.EncodeToString (sha512.Sum (bytes_of_string value)))].
Proof.
  intros Hrun Hs Hv.
  pose proof (run_consistent es start s os consistent_initial Hrun) as Hc.
  pose proof Hc as (p & old & Hp & Hold & Htot & Hr).
  assert (Ha : accepted (globals s) (post value) = true).
  { apply accepted_true. split; [exact Hs|]. split; [reflexivity|exact Hv]. }
  set (jid := int32 (jobCounter (globals s) + 1)).
  pose proof (until_sleep_accepted (post value) elapsed _ p old Ha Hp Hold) as Hu.
  cbn zeta in Hu. fold jid in Hu.
  change (PostFormValue (post value) passwordFormName) with value in Hu.
  match type of Hu with _ = Some (_, ?g, _) => set (g1 := g) in * end.
  set (g2 := mkGlobals (<[jid := digest_of value]> (hashes g1)) (jobCounter g1)
               (hashStats g1) (stopping g1) (mem g1)).
  destruct (retrieval_by_id g2 jid elapsed' Hs (int32_range _)) as (t & Hserve & Hresp).
  unfold g2 in Hresp at 1. cbn [hashes] in Hresp.
  rewrite lookup_insert_eq in Hresp.
  pose proof (digest_nonempty value) as Hne. apply String.eqb_neq in Hne.
  rewrite Hne in Hresp.
  eexists _, _, _, _, (strconv_Itoa jid), t.
  split. { cbn [step]. rewrite Hu. reflexivity. }
  split; [reflexivity|]. split; [reflexivity|].
  split; [apply step_wake_last|].
  split; [exact Hserve|exact Hresp].
Qed.

Lemma submitted_id_retrieves_digest_witness :
  exists s1 o1 s2 o2 b t,
    step ten_server (HashRequest (post "two words") 25000) = Some (s1, o1)
    /\ Code (response_of (effects o1)) = StatusOK
    /\ Body (response_of (effects o1)) = [BText b]
    /\ step s1 (Wake (length (sleeping ten_server))) = Some (s2, o2)
    /\ HashHandler_ServeHTTP (get ("/hash/" ++ b)) 0 (globals s2)
       = Some (tt, globals s2, t)
    /\ Code (response_of t) = StatusOK
    /\ Body (response_of t)
       = [BText (base64.EncodeToString (sha512.Sum (bytes_of_string "two words")))].
Proof.
  apply (submitted_id_retrieves_digest ten_sequential ten_server ten_outcomes
           "two words" 25000 0).
  - vm_compute. reflexivity.
  - discriminate.
  - discriminate.
Defined.

Lemma stored_digests_are_correct_witness :
  exists v, (1, v) ∈ jobs retrieve_outcomes /\ 1 ∈ job_ids retrieve_outcomes
            /\ "ZEHhWB65gUlzdVwtDQArEyx+KVLzp/aTaRaPlBzYRIFj6vjFdqEb0Q5B8zVKCZ0vKbZPZklJz0Fd7su2A+gf7Q=="
               = base64.EncodeToString (sha512.Sum (bytes_of_string v)).
Proof.
  apply (stored_digests_are_correct retrieve_unsubmitted retrieve_server retrieve_outcomes).
  - vm_compute. reflexivity.
  - vm_compute. reflexivity.
Defined.

Lemma stored_digest_is_kept_witness :
  hashes (globals ten_server) !! 1 =
  Some "ZEHhWB65gUlzdVwtDQArEyx+KVLzp/aTaRaPlBzYRIFj6vjFdqEb0Q5B8zVKCZ0vKbZPZklJz0Fd7su2A+gf7Q==".
Proof.
  apply (stored_digest_is_kept [HashRequest (post "angryMonkey") 25000; Wake 0]
           (skipn 2 ten_sequential) first_wake_server (firstn 2 ten_outcomes)
           ten_server (skipn 2 ten_outcomes)).
  - vm_compute. reflexivity.
  - vm_compute. reflexivity.
  - vm_compute. discriminate.
  - vm_compute. reflexivity.
Defined.

Lemma total_never_decreases_witness :
  exists hs1 hs2,
    published (globals first_wake_server) = Some hs1
    /\ published (globals ten_server) = Some hs2
    /\ Total hs2 = Total hs1 + Z.of_nat (length (job_ids (skipn 2 ten_outcomes)))
    /\ Total hs1 <= Total hs2.
Proof.
  apply (total_never_decreases [HashRequest (post "angryMonkey") 25000; Wake 0]
           (skipn 2 ten_sequential) first_wake_server (firstn 2 ten_outcomes)
           ten_server (skipn 2 ten_outcomes)).
  - vm_compute. reflexivity.
  - vm_compute. reflexivity.
  - vm_compute. discriminate.
Defined.

Lemma reachable_never_panics_witness :
  exists s' o, step stopped_server (Wake 0) = Some (s', o).
Proof.
  apply (reachable_never_panics submit_then_signal stopped_server
           stopped_outcomes).
  - vm_compute. reflexivity.
  - intros i Hi. injection Hi as <-. vm_compute. constructor.
Defined.

(** ** The remaining branches of the handlers *)

Lemma serve_without_deferred r elapsed g t :
  HashHandler_body r elapsed g = Some (None, g, t) ->
  HashHandler_ServeHTTP r elapsed g = Some (tt, g, t).
Proof.
  intros Ht. unfold HashHandler_ServeHTTP. unfold_monad. rewrite Ht. cbn.
  rewrite app_nil_r. reflexivity.
Qed.

(** X9: while the server is not stopping, [HashHandler] answers every
    method other than GET and POST with 405 and the message
    ["Only POST and GET requests are supported."], and changes nothing. *)
Theorem HashHandler_other_methods (r : Request) (elapsed : Z) (g : Globals) :
  stopping g <> 1 -> Method r <> MethodGet -> Method r <> MethodPost ->
  exists t,
    HashHandler_ServeHTTP r elapsed g = Some (tt, g, t)
    /\ Code (response_of t) = StatusMethodNotAllowed
    /\ Body (response_of t)
       = [BText ("Only POST and GET requests are supported."
                 ++ String (ascii_of_nat 10) "")%string].
Proof.
  intros Hs Hg Hp. eexists. split.
  - apply serve_without_deferred, HashHandler_body_other; assumption.
  - split; reflexivity.
Qed.

Lemma HashHandler_other_methods_witness :
  exists t,
    HashHandler_ServeHTTP (put "/hash") 0 initial = Some (tt, initial, t)
    /\ Code (response_of t) = StatusMethodNotAllowed
    /\ Body (response_of t)
       = [BText ("Only POST and GET requests are supported."
                 ++ String (ascii_of_nat 10) "")%string].
Proof. apply (HashHandler_other_methods (put "/hash") 0 initial); discriminate. Defined.

(** X10: [StatsHandler] only reads.  Whenever a snapshot is published,
    the handler returns with every variable as it was, and its answer is
    503 when the server is stopping, else 405 for a method other than GET,
    else 500 when the published average is a NaN or infinite, else 200
    with the JSON of the published snapshot and the content type
    [application/json]. *)
Theorem StatsHandler_response (r : Request) (g : Globals) (p : nat) (hs : HashStat) :
  hashStats g = Some p -> mem g !! p = Some hs ->
  exists t,
    StatsHandler_ServeHTTP r g = Some (tt, g, t)
    /\ let w := response_of t in
       if stopping g =? 1 then Code w = StatusServiceUnavailable
       else if String.eqb (Method r) MethodGet then
         if is_nan (Average hs) || is_infinity (Average hs)
         then Code w = StatusInternalServerError
         else Code w = StatusOK /\ Body w = [BJSON hs]
              /\ Header w = [("Content-Type", "application/json")]
       else Code w = StatusMethodNotAllowed.
Proof.
  intros Hp Hhs.
  assert (Hj : json_Marshal hs =
               if is_nan (Average hs) || is_infinity (Average hs) then None
               else Some (BJSON hs)) by reflexivity.
  remember (is_nan (Average hs) || is_infinity (Average hs)) as bad eqn:Hbad.
  clear Hbad. unfold StatsHandler_ServeHTTP. run_monad.
  destruct (stopping g =? 1); [eexists; split; reflexivity|].
  destruct (String.eqb (Method r) MethodGet); cbn; [|eexists; split; reflexivity].
  rewrite Hp. cbn. rewrite Hhs. cbn. rewrite Hj.
  destruct bad; eexists; (split; [reflexivity|]); cbn; repeat split.
Qed.

Lemma StatsHandler_response_witness :
  exists t,
    StatsHandler_ServeHTTP (get "/stats") first_served = Some (tt, first_served, t)
    /\ Code (response_of t) = StatusOK
    /\ Body (response_of t) = [BJSON (mkHashStat 1 (milliseconds 25000))]
    /\ Header (response_of t) = [("Content-Type", "application/json")].
Proof.
  apply (StatsHandler_response (get "/stats") first_served 1%nat
           (mkHashStat 1 (milliseconds 25000))); vm_compute; reflexivity.
Defined.

(** X11: the basic server.  [PasswordHandler] never touches a variable;
    it answers a POST with a non-empty value, after sleeping five seconds,
    with the digest of the value as the whole body (status 200), a POST
    with an empty or absent value with 400 and the bare message, and every
    other method with 405. *)
Theorem PasswordHandler_response (r : Request) (g : Globals) :
  exists t,
    PasswordHandler_ServeHTTP r g = Some (tt, g, t)
    /\ let w := response_of t in
       if String.eqb (Method r) MethodPost then
         if String.eqb (PostFormValue r passwordFormName) "" then
           Code w = StatusBadRequest
           /\ Body w = [BText "A value must be submitted."]
           /\ ~ In (ESleep 5) t
         else
           Code w = StatusOK
           /\ Body w = [BText (base64.EncodeToString
                                 (sha512.Sum (bytes_of_string
                                    (PostFormValue r passwordFormName))))]
           /\ hd_error t = Some (ESleep 5)
       else Code w = StatusMethodNotAllowed.
Proof.
  unfold PasswordHandler_ServeHTTP, encryptAndEncode. run_monad.
  destruct (String.eqb (Method r) MethodPost); [|eexists; split; reflexivity].
  destruct (String.eqb (PostFormValue r passwordFormName) ""); cbn.
  - eexists. split; [reflexivity|]. cbn. repeat split.
    intros [H|[H|H]]; [discriminate H|discriminate H|exact H].
  - eexists. split; [reflexivity|]. cbn. repeat split.
Qed.

(** ** The sentinel of line 69 *)

(** X12: every string in the store has 88 characters, so the test
    [jidHash == ""] of line 69, which stands for "no entry", never hides a
    stored digest. *)
Theorem stored_digests_have_88_chars es s os k d :
  run start es = Some (s, os) -> hashes (globals s) !! k = Some d ->
  String.length d = 88%nat /\ d <> "".
Proof.
  intros Hrun Hk.
  destruct (run_stored_from es [] start s os consistent_initial Hrun) as [Hh _].
  { split; [intros k' d' H'; discriminate H'|intros kv H'; inversion H']. }
  destruct (Hh k d Hk) as (v & _ & ->). split; [apply digest_length|apply digest_nonempty].
Qed.

Lemma stored_digests_have_88_chars_witness :
  String.length
    "ZEHhWB65gUlzdVwtDQArEyx+KVLzp/aTaRaPlBzYRIFj6vjFdqEb0Q5B8zVKCZ0vKbZPZklJz0Fd7su2A+gf7Q=="
  = 88%nat
  /\ "ZEHhWB65gUlzdVwtDQArEyx+KVLzp/aTaRaPlBzYRIFj6vjFdqEb0Q5B8zVKCZ0vKbZPZklJz0Fd7su2A+gf7Q=="
     <> "".
Proof.
  apply (stored_digests_have_88_chars retrieve_unsubmitted retrieve_server
           retrieve_outcomes 1).
  - vm_compute. reflexivity.
  - vm_compute. reflexivity.
Defined.

(** ** Before [hashStats] is initialised *)

(** X13: while nothing has been stored in [hashStats], the type assertion
    of [hashStats.Load()] panics: [updateStats] panics, hence so does
    [HashHandler] on every accepted submission, and so does [StatsHandler]
    on every GET of a server that is not stopping.  This is why [main] and
    the tests store a [HashStat] first. *)
Theorem uninitialised_stats_panic (g : Globals) (r : Request) (elapsed : Z) :
  hashStats g = None ->
  updateStats elapsed g = None
  /\ (accepted g r = true -> HashHandler_ServeHTTP r elapsed g = None)
  /\ (stopping g <> 1 -> Method r = MethodGet -> StatsHandler_ServeHTTP r g = None).
Proof.
  intros Hn. split; [rewrite updateStats_eq, Hn; reflexivity|]. split.
  - intros Ha. apply accepted_true in Ha as (Hs & Hm & Hv).
    apply Z.eqb_neq in Hs. apply String.eqb_neq in Hv.
    unfold HashHandler_ServeHTTP, HashHandler_body. run_monad.
    rewrite Hs, Hm, Hv. cbn. rewrite updateStats_eq. cbn. rewrite Hn. reflexivity.
  - intros Hs Hm. apply Z.eqb_neq in Hs.
    unfold StatsHandler_ServeHTTP. run_monad. rewrite Hs, Hm. cbn. rewrite Hn.
    reflexivity.
Qed.

Lemma uninitialised_stats_panic_witness :
  updateStats 25000 zero_globals = None
  /\ (accepted zero_globals (post "angryMonkey") = true ->
      HashHandler_ServeHTTP (post "angryMonkey") 25000 zero_globals = None)
  /\ (stopping zero_globals <> 1 -> Method (post "angryMonkey") = MethodGet ->
      StatsHandler_ServeHTTP (post "angryMonkey") zero_globals = None).
Proof. apply (uninitialised_stats_panic zero_globals (post "angryMonkey") 25000). reflexivity. Defined.

(** ** Draining *)

Lemma size_remove (c : nat) (open : gset nat) :
  c ∈ open -> size open = S (size (open ∖ {[c]})).
Proof.
  intros Hin.
  assert (Hsub : ({[c]} : gset nat) ⊆ open) by (apply singleton_subseteq_l, Hin).
  rewrite (union_difference_L {[c]} open Hsub) at 1.
  rewrite size_union by apply disjoint_difference_r1, reflexivity.
  rewrite size_singleton. reflexivity.
Qed.

Lemma ConnState_hooks_open changes : forall open ended counter open' ended',
  conn_changes (open, ended) changes = Some (open', ended') ->
  counter = Z.of_nat (size open) ->
  ConnState_hooks changes counter = Some (Z.of_nat (size open')).
Proof.
  induction changes as [|[c state] changes IH]; intros open ended counter open' ended' Hch ->;
    cbn [conn_changes ConnState_hooks] in *.
  - injection Hch as <- <-. reflexivity.
  - destruct (conn_change (open, ended) (c, state)) as [[open1 ended1]|] eqn:E;
      [|discriminate].
    cbn [conn_change] in E.
    destruct state; cbn [ConnState_hook wg_Done].
    + destruct (decide (c ∈ open ∨ c ∈ ended)) as [|Hfresh]; [discriminate|].
      injection E as <- <-. unfold wg_Add.
      destruct (Z.ltb_spec (Z.of_nat (size open) + 1) 0); [lia|].
      apply (IH _ _ _ _ _ Hch).
      rewrite size_union by (apply disjoint_singleton_l; tauto).
      rewrite size_singleton. lia.
    + destruct (decide (c ∈ open)); [|discriminate]. injection E as <- <-.
      apply (IH _ _ _ _ _ Hch). reflexivity.
    + destruct (decide (c ∈ open)); [|discriminate]. injection E as <- <-.
      apply (IH _ _ _ _ _ Hch). reflexivity.
    + destruct (decide (c ∈ open)) as [Hin|]; [|discriminate]. injection E as <- <-.
      pose proof (size_remove c open Hin) as Hsz.
      unfold wg_Done, wg_Add. destruct (Z.ltb_spec (Z.of_nat (size open) + -1) 0); [lia|].
      apply (IH _ _ _ _ _ Hch). lia.
    + destruct (decide (c ∈ open)) as [Hin|]; [|discriminate]. injection E as <- <-.
      pose proof (size_remove c open Hin) as Hsz.
      unfold wg_Done, wg_Add. destruct (Z.ltb_spec (Z.of_nat (size open) + -1) 0); [lia|].
      apply (IH _ _ _ _ _ Hch). lia.
Qed.

(** X14: the [WaitGroup] of [main] counts the open connections.  For
    every sequence of state changes that [net/http] may report, the hook
    never makes the counter negative (no panic), the counter is the number
    of connections that are new and neither closed nor hijacked, and so
    [wg.Wait()] returns exactly when no connection is open. *)
Theorem WaitGroup_counts_open_connections changes open ended :
  conn_changes (∅, ∅) changes = Some (open, ended) ->
  ConnState_hooks changes 0 = Some (Z.of_nat (size open))
  /\ (Wait_returns (Z.of_nat (size open)) = true <-> open = ∅).
Proof.
  intros Hch. split.
  - apply (ConnState_hooks_open changes ∅ ∅ 0 open ended Hch). reflexivity.
  - unfold Wait_returns. rewrite Z.eqb_eq. split.
    + intros H. apply leibniz_equiv, size_empty_inv. lia.
    + intros ->. reflexivity.
Qed.

Lemma WaitGroup_counts_open_connections_witness :
  ConnState_hooks three_connections 0 = Some (Z.of_nat (size ({[2%nat]} : gset nat)))
  /\ (Wait_returns (Z.of_nat (size ({[2%nat]} : gset nat))) = true
      <-> ({[2%nat]} : gset nat) = ∅).
Proof.
  apply (WaitGroup_counts_open_connections three_connections {[2%nat]} {[0%nat; 1%nat]}).
  vm_compute. reflexivity.
Defined.

(** ** Retrieval without a usable job id *)

(** X15: a GET whose path has no third field, an empty one, or one that
    [strconv.Atoi] rejects is answered with 400 and changes nothing; the
    message is ["No job id specified."] when the field is missing or empty
    and ["Unable to process the supplied job id."] otherwise. *)
Theorem retrieve_malformed (r : Request) (elapsed : Z) (g : Globals) :
  stopping g <> 1 -> Method r = MethodGet ->
  let id := nth 2 (strings_Split (Path r) "/") "" in
  strconv_Atoi id = None ->
  exists t,
    HashHandler_ServeHTTP r elapsed g = Some (tt, g, t)
    /\ Code (response_of t) = StatusBadRequest
    /\ Body (response_of t)
       = [BText ((if String.eqb id "" then "No job id specified."
                  else "Unable to process the supplied job id.")
                 ++ String (ascii_of_nat 10) "")%string].
Proof.
  intros Hs Hm id Hid.
  pose proof (HashHandler_body_get r elapsed g Hs Hm) as Hb. cbn zeta in Hb.
  fold id in Hb. rewrite Hid in Hb.
  destruct (String.eqb id "") eqn:He.
  - rewrite andb_false_r in Hb.
    eexists. split; [apply serve_without_deferred, Hb|]. split; reflexivity.
  - destruct (3 <=? length (strings_Split (Path r) "/"))%nat eqn:Hl.
    + eexists. split; [apply serve_without_deferred, Hb|]. split; reflexivity.
    + apply Nat.leb_gt in Hl. apply String.eqb_neq in He. exfalso. apply He.
      unfold id. apply nth_overflow. lia.
Qed.

Lemma retrieve_malformed_witness :
  exists t,
    HashHandler_ServeHTTP (get "/hash/abc") 0 initial = Some (tt, initial, t)
    /\ Code (response_of t) = StatusBadRequest
    /\ Body (response_of t)
       = [BText ("Unable to process the supplied job id."
                 ++ String (ascii_of_nat 10) "")%string].
Proof.
  apply (retrieve_malformed (get "/hash/abc") 0 initial); [discriminate|reflexivity|reflexivity].
Defined.

(** What [strconv_Atoi] rejects, and a signed number it accepts. *)
Example Atoi_rejects :
  strconv_Atoi "" = None /\ strconv_Atoi "abc" = None /\ strconv_Atoi "-" = None
  /\ strconv_Atoi "1a" = None /\ strconv_Atoi "+7" = Some 7.
Proof. repeat split; reflexivity. Qed.

(** ** Any number of concurrent calls of [updateStats] *)

Lemma step_AtLoad d g p :
  hashStats g = Some p -> updateStats_step (AtLoad d) g = Some (AtAdd d p, g, []).
Proof. intros Hp. cbn [updateStats_step]. run_monad. rewrite Hp. reflexivity. Qed.

Lemma step_AtAdd d h g hs :
  mem g !! h = Some hs ->
  updateStats_step (AtAdd d h) g =
  Some (AtStore d h (int32 (Total hs + 1)),
        mkGlobals (hashes g) (jobCounter g) (hashStats g) (stopping g)
          (<[h := mkHashStat (int32 (Total hs + 1)) (Average hs)]> (mem g)),
        []).
Proof. intros Hh. cbn [updateStats_step]. run_monad. rewrite Hh. reflexivity. Qed.

Lemma step_AtStore d h num g hs :
  mem g !! h = Some hs ->
  exists avg t,
    updateStats_step (AtStore d h num) g =
    Some (Returned,
          mkGlobals (hashes g) (jobCounter g) (Some (length (mem g))) (stopping g)
            (mem g ++ [mkHashStat num avg]),
          t).
Proof.
  intros Hh. cbn [updateStats_step]. run_monad. rewrite Hh. cbn.
  eexists _, _. reflexivity.
Qed.

Lemma increments_insert pcs : forall i pc pc',
  pcs !! i = Some pc ->
  (increments (<[i := pc']> pcs) + incremented pc
   = increments pcs + incremented pc')%nat.
Proof.
  unfold increments.
  induction pcs as [|x pcs IH]; intros i pc pc' Hi; [discriminate|].
  destruct i as [|i]; cbn in *.
  - injection Hi as ->. lia.
  - specialize (IH i pc pc' Hi). rewrite <- !Nat.add_assoc. f_equal. exact IH.
Qed.

Lemma increments_bound pcs : forall i pc,
  pcs !! i = Some pc ->
  (increments pcs + 1 <= length pcs + incremented pc)%nat.
Proof.
  unfold increments.
  induction pcs as [|x pcs IH]; intros i pc Hi; [discriminate|].
  destruct i as [|i]; cbn in *.
  - injection Hi as ->.
    assert (sum_list (incremented <$> pcs) <= length pcs)%nat; [|lia].
    clear. induction pcs as [|y pcs IH]; cbn; [lia|].
    destruct y; cbn; lia.
  - specialize (IH i pc Hi). destruct x; cbn; lia.
Qed.

Lemma increments_all_returned pcs :
  Forall (eq Returned) pcs -> increments pcs = length pcs.
Proof.
  unfold increments. induction 1 as [|x pcs <- _ IH]; [reflexivity|].
  cbn. rewrite IH. reflexivity.
Qed.

Lemma increments_at_load ds : increments (AtLoad <$> ds) = 0%nat.
Proof.
  unfold increments. induction ds as [|d ds IH]; [reflexivity|]. exact IH.
Qed.

(** One step of one goroutine never panics and keeps the invariant, as
    long as the total cannot leave the [int32] range. *)
Lemma race_step T0 pcs g i pc :
  race_invariant T0 pcs g -> pcs !! i = Some pc ->
  MinInt32 <= T0 -> T0 + Z.of_nat (length pcs) <= MaxInt32 ->
  exists pc' g' t,
    updateStats_step pc g = Some (pc', g', t)
    /\ race_invariant T0 (<[i := pc']> pcs) g'.
Proof.
  intros ((p & hs & Hp & Hhs & Hb & Hret) & Hadd & Hstore) Hi Hmin Hmax.
  pose proof (lookup_lt_Some _ _ _ Hi) as Hlt.
  pose proof (increments_bound pcs i pc Hi) as Hcount.
  destruct pc as [d | d h | d h num | ].
  - (* line 214 *)
    eexists _, _, _. split; [apply (step_AtLoad d g p Hp)|].
    pose proof (increments_insert pcs i _ (AtAdd d p) Hi) as Hins. cbn in Hins.
    unfold race_invariant. replace (increments (<[i:=AtAdd d p]> pcs)) with (increments pcs) by lia.
    split; [|split].
    + exists p, hs. repeat split; try tauto; try lia.
      intros [j Hj]. apply Hret.
      destruct (decide (i = j)) as [->|Hne].
      * rewrite list_lookup_insert_eq in Hj by exact Hlt. discriminate.
      * rewrite list_lookup_insert_ne in Hj by exact Hne. eauto.
    + intros j d' h' Hj. destruct (decide (i = j)) as [->|Hne].
      * rewrite list_lookup_insert_eq in Hj by exact Hlt. injection Hj as <- <-. eauto.
      * rewrite list_lookup_insert_ne in Hj by exact Hne. eauto.
    + intros j d' h' num' Hj. destruct (decide (i = j)) as [->|Hne].
      * rewrite list_lookup_insert_eq in Hj by exact Hlt. discriminate.
      * rewrite list_lookup_insert_ne in Hj by exact Hne. eauto.
  - (* line 215 *)
    destruct (Hadd i d h Hi) as (hs' & Hh & Hb').
    cbn in Hcount.
    assert (Hnum : int32 (Total hs' + 1) = Total hs' + 1)
      by (apply int32_small; unfold MinInt32, MaxInt32 in *; lia).
    eexists _, _, _. split; [apply (step_AtAdd d h g hs' Hh)|]. rewrite Hnum.
    pose proof (increments_insert pcs i _ (AtStore d h (Total hs' + 1)) Hi) as Hins.
    cbn in Hins.
    unfold race_invariant.
    replace (increments (<[i:=AtStore d h (Total hs' + 1)]> pcs)) with (S (increments pcs)) by lia.
    rewrite Nat2Z.inj_succ. cbn [hashStats mem].
    pose proof (lookup_lt_Some _ _ _ Hh) as Hhlt.
    split; [|split].
    + destruct (decide (h = p)) as [->|Hne].
      * exists p, (mkHashStat (Total hs' + 1) (Average hs')).
        rewrite list_lookup_insert_eq by exact Hhlt.
        assert (hs' = hs) by congruence. subst hs'. cbn.
        repeat split; try tauto; lia.
      * exists p, hs. rewrite list_lookup_insert_ne by exact Hne.
        repeat split; try tauto; try lia.
        intros [j Hj]. apply Hret.
        destruct (decide (i = j)) as [->|Hne'].
        -- rewrite list_lookup_insert_eq in Hj by exact Hlt. discriminate.
        -- rewrite list_lookup_insert_ne in Hj by exact Hne'. eauto.
    + intros j d' h' Hj. destruct (decide (i = j)) as [->|Hne].
      { rewrite list_lookup_insert_eq in Hj by exact Hlt. discriminate. }
      rewrite list_lookup_insert_ne in Hj by exact Hne.
      destruct (Hadd j d' h' Hj) as (hs'' & Hh'' & Hb'').
      destruct (decide (h = h')) as [->|Hneh].
      * exists (mkHashStat (Total hs' + 1) (Average hs')).
        rewrite list_lookup_insert_eq by exact Hhlt.
        assert (hs'' = hs') by congruence. subst hs''. cbn. split; [reflexivity|lia].
      * exists hs''. rewrite list_lookup_insert_ne by exact Hneh. split; [exact Hh''|lia].
    + intros j d' h' num' Hj. destruct (decide (i = j)) as [->|Hne].
      * rewrite list_lookup_insert_eq in Hj by exact Hlt. injection Hj as <- <- <-.
        split; [|lia]. rewrite list_lookup_insert_eq by exact Hhlt. eauto.
      * rewrite list_lookup_insert_ne in Hj by exact Hne.
        destruct (Hstore j d' h' num' Hj) as [Hsome Hn]. split; [|lia].
        apply lookup_lt_is_Some. rewrite length_insert.
        apply lookup_lt_is_Some, Hsome.
  - (* lines 216-220 *)
    destruct (Hstore i d h num Hi) as [[hs' Hh] Hn].
    destruct (step_AtStore d h num g hs' Hh) as (avg & t & E).
    eexists _, _, _. split; [exact E|].
    pose proof (increments_insert pcs i _ Returned Hi) as Hins. cbn in Hins.
    unfold race_invariant.
    replace (increments (<[i:=Returned]> pcs)) with (increments pcs) by lia.
    cbn [hashStats mem].
    split; [|split].
    + exists (length (mem g)), (mkHashStat num avg).
      rewrite lookup_app_r, Nat.sub_diag by lia. cbn.
      repeat split; try lia.
    + intros j d' h' Hj. destruct (decide (i = j)) as [->|Hne].
      { rewrite list_lookup_insert_eq in Hj by exact Hlt. discriminate. }
      rewrite list_lookup_insert_ne in Hj by exact Hne.
      destruct (Hadd j d' h' Hj) as (hs'' & Hh'' & Hb'').
      exists hs''. split; [|exact Hb''].
      rewrite lookup_app_l by (eapply lookup_lt_Some; eauto). exact Hh''.
    + intros j d' h' num' Hj. destruct (decide (i = j)) as [->|Hne].
      { rewrite list_lookup_insert_eq in Hj by exact Hlt. discriminate. }
      rewrite list_lookup_insert_ne in Hj by exact Hne.
      destruct (Hstore j d' h' num' Hj) as [Hsome Hn']. split; [|exact Hn'].
      apply lookup_lt_is_Some. rewrite length_app. cbn.
      apply lookup_lt_is_Some in Hsome. lia.
  - (* returned *)
    exists Returned, g, []. split; [reflexivity|].
    rewrite list_insert_id by exact Hi.
    split; [exists p, hs; tauto|]. split; assumption.
Qed.

Lemma race_run T0 schedule : forall pcs g,
  race_invariant T0 pcs g ->
  MinInt32 <= T0 -> T0 + Z.of_nat (length pcs) <= MaxInt32 ->
  Forall (fun i => (i < length pcs)%nat) schedule ->
  exists pcs' g' t,
    interleave schedule pcs g = Some (pcs', g', t)
    /\ race_invariant T0 pcs' g' /\ length pcs' = length pcs.
Proof.
  induction schedule as [|i schedule IH]; intros pcs g Hinv Hmin Hmax Hsched.
  - exists pcs, g, []. split; [reflexivity|]. split; [exact Hinv|reflexivity].
  - apply Forall_cons in Hsched as [Hi Hsched].
    apply lookup_lt_is_Some in Hi as [pc Hpc].
    destruct (race_step T0 pcs g i pc Hinv Hpc Hmin Hmax) as (pc' & g1 & t1 & Hstep & Hinv1).
    destruct (IH (<[i := pc']> pcs) g1 Hinv1 Hmin) as (pcs' & g' & t & Hrun & Hinv' & Hlen).
    { rewrite length_insert. exact Hmax. }
    { rewrite length_insert. exact Hsched. }
    cbn [interleave]. rewrite Hpc. unfold_monad. rewrite Hstep, Hrun.
    eexists _, _, _. split; [reflexivity|]. split; [exact Hinv'|].
    rewrite Hlen. apply length_insert.
Qed.

(** X16: any number of calls of [updateStats] in any interleaving of their
    loads, increments and stores.  From a valid published snapshot with
    total [T0], with [n] calls and [T0 + n] inside [int32], no step panics;
    and once every call has returned, the published total is at least
    [T0 + 1] and at most [T0 + n]: updates can be lost, but never all of
    them, and none is counted twice. *)
Theorem concurrent_updateStats_total_bounds
    (ds : list Z) (schedule : list nat) (g : Globals) (p : nat) (old : HashStat) :
  hashStats g = Some p -> mem g !! p = Some old ->
  MinInt32 <= Total old -> Total old + Z.of_nat (length ds) <= MaxInt32 ->
  Forall (fun i => (i < length ds)%nat) schedule ->
  exists pcs' g' t,
    interleave schedule (AtLoad <$> ds) g = Some (pcs', g', t)
    /\ (Forall (eq Returned) pcs' -> ds <> [] ->
        exists hs, published g' = Some hs
                   /\ Total old + 1 <= Total hs <= Total old + Z.of_nat (length ds)).
Proof.
  intros Hp Hold Hmin Hmax Hsched.
  pose proof (increments_at_load ds) as Hinc0.
  assert (Hinv : race_invariant (Total old) (AtLoad <$> ds) g).
  { unfold race_invariant. rewrite Hinc0. split; [|split].
    - exists p, old. repeat split; try lia; try assumption.
      intros [j Hj]. rewrite list_lookup_fmap in Hj.
      destruct (ds !! j); discriminate.
    - intros j d h Hj. rewrite list_lookup_fmap in Hj. destruct (ds !! j); discriminate.
    - intros j d h num Hj. rewrite list_lookup_fmap in Hj. destruct (ds !! j); discriminate. }
  destruct (race_run (Total old) schedule (AtLoad <$> ds) g Hinv Hmin)
    as (pcs' & g' & t & Hrun & ((p' & hs & Hp' & Hhs & Hb & Hret) & _) & Hlen).
  { rewrite length_fmap. exact Hmax. }
  { rewrite length_fmap. exact Hsched. }
  exists pcs', g', t. split; [exact Hrun|]. intros Hall Hne.
  exists hs. unfold published. rewrite Hp'. cbn. split; [exact Hhs|].
  rewrite (increments_all_returned pcs' Hall), Hlen, length_fmap in Hb.
  split; [|lia]. apply Hret.
  destruct pcs' as [|pc pcs']; [destruct ds; [congruence|discriminate Hlen]|].
  exists 0%nat. apply Forall_cons in Hall as [<- _]. reflexivity.
Qed.

Lemma concurrent_updateStats_total_bounds_witness :
  exists pcs' g' t,
    interleave mixed_schedule (AtLoad <$> three_calls) initial = Some (pcs', g', t)
    /\ (Forall (eq Returned) pcs' -> three_calls <> [] ->
        exists hs, published g' = Some hs
                   /\ 0 + 1 <= Total hs <= 0 + Z.of_nat (length three_calls)).
Proof.
  apply (concurrent_updateStats_total_bounds three_calls mixed_schedule initial
           0%nat (mkHashStat 0 0%float)).
  - reflexivity.
  - reflexivity.
  - discriminate.
  - discriminate.
  - repeat constructor.
Defined.

(** The lower bound is reached: in that schedule all three calls increment
    the initial object before any of them stores, and the last store is the
    one that computed total 1, so three calls publish a total of 1. *)
Example mixed_schedule_result :
  published_after mixed_schedule (AtLoad <$> three_calls) =
  Some ([Returned; Returned; Returned], Some (mkHashStat 1 (milliseconds 40000))).
Proof. vm_compute. reflexivity. Qed.

(** ** Overlapping handlers and interleaved calls of [updateStats] *)

(** The handler bodies of [run] do not overlap.  When they do, the
    published total can fall behind the ids handed out without any two
    calls of [updateStats] overlapping: lines 86 and 96 are separate
    statements, and after lines 86, 86, 96 of two handlers two ids are out
    and the published total is 1. *)
Example two_ids_one_record :
  match two_allocations_one_record initial with
  | Some (_, g, _) => Some (jobCounter g, Total <$> published g)
  | None => None
  end = Some (2, Some 1).
Proof. vm_compute. reflexivity. Qed.

(** One step of one call of [updateStats], in any state: every object
    stays allocated and keeps its [Average]; only the step of line 215
    changes an object, the one the call loaded; the published pointer stays
    or becomes the address of the object the step allocates; and a call
    gets its pointer from [hashStats] only. *)
Lemma updateStats_step_frame pc g pc' g' t :
  updateStats_step pc g = Some (pc', g', t) ->
  (forall q hs, mem g !! q = Some hs ->
     exists hs', mem g' !! q = Some hs' /\ Average hs' = Average hs
       /\ ((forall d, pc <> AtAdd d q) -> hs' = hs))
  /\ ((hashStats g' = hashStats g /\ length (mem g') = length (mem g))
      \/ (hashStats g' = Some (length (mem g))
          /\ length (mem g') = S (length (mem g))))
  /\ (forall d h, pc' = AtAdd d h -> hashStats g = Some h)
  /\ hashes g' = hashes g /\ jobCounter g' = jobCounter g
  /\ stopping g' = stopping g.
Proof.
  destruct pc as [d | d h | d h num | ]; cbn [updateStats_step]; run_monad; intros H.
  - destruct (hashStats g) as [p|] eqn:Hp; [|discriminate]. cbn in H.
    injection H as <- <- <-.
    split; [intros q hs Hq; exists hs; auto|].
    split; [left; auto|]. split; [|auto].
    intros d' h' E. injection E as _ <-. reflexivity.
  - destruct (mem g !! h) as [old|] eqn:Hh; [|discriminate]. cbn in H.
    injection H as <- <- <-. cbn [mem hashStats hashes jobCounter stopping].
    pose proof (lookup_lt_Some _ _ _ Hh) as Hlt.
    split.
    { intros q hs Hq. destruct (decide (q = h)) as [->|Hne].
      - rewrite list_lookup_insert_eq by exact Hlt.
        assert (hs = old) by congruence. subst hs.
        eexists. split; [reflexivity|]. split; [reflexivity|].
        intros Hpc. destruct (Hpc d). reflexivity.
      - rewrite list_lookup_insert_ne by congruence. exists hs. auto. }
    split; [left; split; [reflexivity|apply length_insert]|].
    split; [discriminate|auto].
  - destruct (mem g !! h) as [old|] eqn:Hh; [|discriminate]. cbn in H.
    injection H as <- <- <-. cbn [mem hashStats hashes jobCounter stopping].
    split.
    { intros q hs Hq. exists hs.
      rewrite lookup_app_l by (eapply lookup_lt_Some; eauto). auto. }
    split; [right; split; [reflexivity|rewrite length_app; cbn; lia]|].
    split; [discriminate|auto].
  - injection H as <- <- <-.
    split; [intros q hs Hq; exists hs; auto|].
    split; [left; auto|]. split; [discriminate|auto].
Qed.

Lemma interleave_frame schedule : forall pcs g pcs' g' t,
  interleave schedule pcs g = Some (pcs', g', t) ->
  (forall q hs, mem g !! q = Some hs ->
     exists hs', mem g' !! q = Some hs' /\ Average hs' = Average hs
       /\ (hashStats g <> Some q -> (forall i d, pcs !! i <> Some (AtAdd d q)) ->
           hs' = hs))
  /\ (length (mem g) <= length (mem g'))%nat
  /\ (hashStats g' = hashStats g
      \/ exists q, hashStats g' = Some q
                   /\ (length (mem g) <= q < length (mem g'))%nat)
  /\ hashes g' = hashes g /\ jobCounter g' = jobCounter g
  /\ stopping g' = stopping g.
Proof.
  induction schedule as [|i schedule IH]; intros pcs g pcs' g' t H.
  - injection H as <- <- <-.
    split; [intros q hs Hq; exists hs; auto|]. split; [lia|]. auto.
  - cbn [interleave] in H.
    destruct (pcs !! i) as [pc|] eqn:Hpc; [|discriminate].
    unfold mbind, M_bind in H.
    destruct (updateStats_step pc g) as [[[pc1 g1] t1]|] eqn:Hstep; [|discriminate].
    destruct (interleave schedule (<[i := pc1]> pcs) g1) as [[[pcs2 g2] t2]|] eqn:Hrun;
      [|discriminate].
    injection H as <- <- <-.
    destruct (updateStats_step_frame pc g pc1 g1 t1 Hstep)
      as (Hobj & Hpub & Hload & Hh & Hj & Hs).
    destruct (IH _ _ _ _ _ Hrun) as (Hobj' & Hlen' & Hpub' & Hh' & Hj' & Hs').
    assert (Hlen : (length (mem g) <= length (mem g1))%nat)
      by (destruct Hpub as [[_ E]|[_ E]]; lia).
    split; [|split; [lia|split]].
    + intros q hs Hq.
      destruct (Hobj q hs Hq) as (hs1 & Hq1 & Havg1 & Hsame1).
      destruct (Hobj' q hs1 Hq1) as (hs2 & Hq2 & Havg2 & Hsame2).
      exists hs2. split; [exact Hq2|]. split; [congruence|].
      intros Hnp Hnh.
      assert (E1 : hs1 = hs).
      { apply Hsame1. intros d E. subst pc. exact (Hnh i d Hpc). }
      subst hs1.
      apply Hsame2.
      * pose proof (lookup_lt_Some _ _ _ Hq) as Hlt.
        destruct Hpub as [[E _]|[E _]]; rewrite E; [exact Hnp|].
        intros E'. injection E' as E'. lia.
      * intros j d Hjd. destruct (decide (i = j)) as [->|Hne].
        -- rewrite list_lookup_insert_eq in Hjd by (eapply lookup_lt_Some; eauto).
           injection Hjd as Hjd. apply Hnp. exact (Hload d q Hjd).
        -- rewrite list_lookup_insert_ne in Hjd by exact Hne. exact (Hnh j d Hjd).
    + destruct Hpub' as [E'|(q & Eq & Hq)].
      * destruct Hpub as [[E _]|[E El]].
        -- left. congruence.
        -- right. exists (length (mem g)). split; [congruence|]. lia.
      * right. exists q. split; [exact Eq|]. lia.
    + repeat split; congruence.
Qed.

(** X17: calls of [updateStats] under every interleaving of their steps,
    from any configuration.  Every object stays allocated and keeps its
    [Average].  An object is left exactly as it was unless it is the
    published one or one that a call in progress has loaded and not yet
    incremented: so a call can still increment a snapshot that has been
    superseded since it loaded it, and an object that is neither is never
    modified again.  The published pointer stays, or ends at an object
    allocated during the run.  The job store, the job counter and the
    stopping flag are untouched. *)
Theorem interleaved_updateStats_frame
    (schedule : list nat) (pcs pcs' : list UpdatePc) (g g' : Globals) (t : list Effect) :
  interleave schedule pcs g = Some (pcs', g', t) ->
  (forall q hs, mem g !! q = Some hs ->
     exists hs', mem g' !! q = Some hs' /\ Average hs' = Average hs
       /\ (hashStats g <> Some q -> (forall i d, pcs !! i <> Some (AtAdd d q)) ->
           hs' = hs))
  /\ (hashStats g' = hashStats g
      \/ exists q, hashStats g' = Some q
                   /\ (length (mem g) <= q < length (mem g'))%nat)
  /\ hashes g' = hashes g /\ jobCounter g' = jobCounter g
  /\ stopping g' = stopping g.
Proof.
  intros H.
  destruct (interleave_frame schedule pcs g pcs' g' t H)
    as (Hobj & _ & Hpub & Hrest).
  split; [exact Hobj|]. split; [exact Hpub|exact Hrest].
Qed.

Lemma interleaved_updateStats_frame_witness :
  (forall q hs, mem initial !! q = Some hs ->
     exists hs', mem late_increment_globals !! q = Some hs'
       /\ Average hs' = Average hs
       /\ (hashStats initial <> Some q ->
           (forall i d, two_calls !! i <> Some (AtAdd d q)) -> hs' = hs))
  /\ (hashStats late_increment_globals = hashStats initial
      \/ exists q, hashStats late_increment_globals = Some q
                   /\ (length (mem initial) <= q
                       < length (mem late_increment_globals))%nat)
  /\ hashes late_increment_globals = hashes initial
  /\ jobCounter late_increment_globals = jobCounter initial
  /\ stopping late_increment_globals = stopping initial.
Proof.
  apply (interleaved_updateStats_frame late_increment_schedule two_calls
           late_increment_pcs initial late_increment_globals late_increment_effects).
  vm_compute. reflexivity.
Defined.

(** In that schedule the first call increments the object published by
    [main] after the second call has replaced it: the superseded object
    goes from total 1 to total 2 while the published one has total 1. *)
Example superseded_snapshot_is_incremented :
  late_increment_pcs = [AtStore 20000 0 2; Returned]
  /\ mem late_increment_globals
     = [mkHashStat 2 0%float; mkHashStat 1 (milliseconds 30000)]
  /\ hashStats late_increment_globals = Some 1%nat
  /\ published_after [0; 1; 1; 1]%nat two_calls
     = Some ([AtAdd 20000 0; Returned], Some (mkHashStat 1 (milliseconds 30000)))
  /\ (mem <$> (snd <$> (fst <$> interleave [0; 1; 1; 1]%nat two_calls initial)))
     = Some [mkHashStat 1 0%float; mkHashStat 1 (milliseconds 30000)].
Proof. repeat split; vm_compute; reflexivity. Qed.
